(** * WooCommerce REST API client: request construction and authentication

    A shallow embedding of [src/index.js] (class version 1.0.2) and of the
    later revision of the same file kept as [src/unnamed/part_000]
    (class version 1.0.4), followed by the properties of the URL builder,
    the parameter flattener, the query-string canonicalizer, the
    authentication selector and the request dispatcher.

    Conventions of the embedding.
    - A JavaScript string is the list of its UTF-16 code units.
    - A JavaScript object is the list of its own enumerable properties in
      enumeration order ([for ... in], spread and [Object.keys] all walk
      that order); an object has no two properties with one key, which the
      theorems ask for as [NoDup] of the keys where it matters.  Objects
      have [Object.prototype] as prototype; the one inherited property
      that an assignment can reach, the accessor [__proto__], is modelled
      in [assign].
    - Numbers are the integers, printed in plain decimal.
    - The packages [url-parse], [oauth-1.0a] and the built-in
      [JSON.stringify] are collaborators; they are a class whose methods the
      code calls.  The HTTP transport is the consumer of the configuration
      object that [request] returns. *)

From Stdlib Require Import List NArith ZArith Lia Bool Ascii.
From Stdlib Require Import Permutation Sorted.
From Stdlib Require String DecimalString DecimalZ DecimalPos.
Import ListNotations String.StringSyntax.

Local Open Scope N_scope.
Local Open Scope list_scope.

(* ================================================================== *)
(** * Part I: the data model and the code *)
(* ================================================================== *)

(** ** Strings *)

Abbreviation jsstring := (list N).

(** The code units of an ASCII literal. *)
Definition js (s : String.string) : jsstring :=
  map N_of_ascii (String.list_ascii_of_string s).
Arguments js s%_string_scope.

Fixpoint str_eqb (a b : jsstring) : bool :=
  match a, b with
  | [], [] => true
  | x :: a', y :: b' => (x =? y) && str_eqb a' b'
  | _, _ => false
  end.

(** [a <= b] in the order of [Array.prototype.sort] without comparator:
    code unit by code unit, a proper prefix first. *)
Fixpoint str_leb (a b : jsstring) : bool :=
  match a, b with
  | [], _ => true
  | _ :: _, [] => false
  | x :: a', y :: b' =>
      if x <? y then true else if y <? x then false else str_leb a' b'
  end.

Fixpoint prefixb (p s : jsstring) : bool :=
  match p, s with
  | [], _ => true
  | _ :: _, [] => false
  | x :: p', y :: s' => (x =? y) && prefixb p' s'
  end.

(** [s.indexOf(p)], with [None] for -1. *)
Fixpoint indexOf (p s : jsstring) : option nat :=
  if prefixb p s then Some 0%nat
  else match s with
       | [] => None
       | _ :: s' => option_map S (indexOf p s')
       end.

(** [i === -1] *)
Definition notFound (i : option nat) : bool :=
  match i with
  | None => true
  | Some _ => false
  end.

(** [s.split(sep)[0]] for a non-empty separator. *)
Definition split0 (sep s : jsstring) : jsstring :=
  match indexOf sep s with
  | Some i => firstn i s
  | None => s
  end.

(** [s.slice(-1)]: the last code unit as a string, or the empty string. *)
Fixpoint slice_last (s : jsstring) : jsstring :=
  match s with
  | [] => []
  | [c] => [c]
  | _ :: s' => slice_last s'
  end.

(** [parts.join(sep)]. *)
Fixpoint join (sep : jsstring) (parts : list jsstring) : jsstring :=
  match parts with
  | [] => []
  | [p] => p
  | p :: rest => p ++ sep ++ join sep rest
  end.

(** The replacement text of [String.prototype.replace] when the pattern is
    a string (no capture groups): [$$] is a dollar, [$&] the match,
    [$`] what precedes it, [$'] what follows it; any other dollar stands
    for itself. *)
Fixpoint GetSubstitution (matched before after repl : jsstring) : jsstring :=
  match repl with
  | [] => []
  | c :: r =>
      if c =? 36 then
        match r with
        | d :: r' =>
            if d =? 36 then 36 :: GetSubstitution matched before after r'
            else if d =? 38 then matched ++ GetSubstitution matched before after r'
            else if d =? 96 then before ++ GetSubstitution matched before after r'
            else if d =? 39 then after ++ GetSubstitution matched before after r'
            else c :: GetSubstitution matched before after r
        | [] => [c]
        end
      else c :: GetSubstitution matched before after r
  end.

(** [s.replace(pattern, replacement)] with a string pattern: the first
    occurrence only. *)
Definition replace (s pattern replacement : jsstring) : jsstring :=
  match indexOf pattern s with
  | None => s
  | Some i =>
      let before := firstn i s in
      let after := skipn (i + length pattern) s in
      before ++ GetSubstitution pattern before after replacement ++ after
  end.

(** [s.replace(/pattern/g, replacement)] for a regular expression that is a
    literal, non-empty text and a replacement without dollar: every
    occurrence, left to right, without overlap.  [skip] counts the code
    units of the current match still to be dropped. *)
Fixpoint replaceAll_from (skip : nat) (pattern replacement s : jsstring) : jsstring :=
  match s with
  | [] => []
  | c :: s' =>
      match skip with
      | S n => replaceAll_from n pattern replacement s'
      | O =>
          if prefixb pattern s
          then replacement ++ replaceAll_from (length pattern - 1) pattern replacement s'
          else c :: replaceAll_from 0 pattern replacement s'
      end
  end.

Definition replaceAll := replaceAll_from 0.

(** ** Values and objects *)

#[local] Set Warnings "-register-all".

Inductive value : Type :=
| VUndefined
| VNull
| VBool (b : bool)
| VNum (n : Z)
| VStr (s : jsstring)
| VArr (items : list value)
| VObj (props : list (jsstring * value)).

Abbreviation obj := (list (jsstring * value)).

Definition keys (o : obj) : list jsstring := map fst o.

(** [o[k]] when [k] is a property of [o]. *)
Fixpoint getProp (k : jsstring) (o : obj) : option value :=
  match o with
  | [] => None
  | (k', v) :: o' => if str_eqb k k' then Some v else getProp k o'
  end.

(** [o[k]]: a missing property reads as [undefined]. *)
Definition readProp (k : jsstring) (o : obj) : value :=
  match getProp k o with
  | Some v => v
  | None => VUndefined
  end.

(** [o[k] = v]: an existing property keeps its place, a new one goes last. *)
Fixpoint setProp (k : jsstring) (v : value) (o : obj) : obj :=
  match o with
  | [] => [(k, v)]
  | (k', v') :: o' =>
      if str_eqb k k' then (k', v) :: o' else (k', v') :: setProp k v o'
  end.

(** [{ ...a, ...b }]. *)
Definition spread (a b : obj) : obj :=
  fold_left (fun acc kv => setProp (fst kv) (snd kv) acc) b a.

(** [...v] inside an object literal: the properties of an object, nothing
    for [undefined]. *)
Definition spreadable (v : value) : obj :=
  match v with
  | VObj props => props
  | _ => []
  end.

(** [typeof v === 'object']. *)
Definition typeof_object (v : value) : bool :=
  match v with
  | VNull | VArr _ | VObj _ => true
  | _ => false
  end.

(** Truthiness, as [if (v)] and [!v] read it. *)
Definition truthy (v : value) : bool :=
  match v with
  | VUndefined | VNull => false
  | VBool b => b
  | VNum n => negb (n =? 0)%Z
  | VStr s => negb (str_eqb s [])
  | VArr _ | VObj _ => true
  end.

Definition NumberToString (n : Z) : jsstring :=
  js (DecimalString.NilZero.string_of_int (Z.to_int n)).

(** The keys and values that [for (const prop in v)] visits when
    [typeof v === 'object']: the properties of an object, the indices of an
    array, nothing for [null]. *)
Fixpoint indexed (i : nat) (items : list value) : obj :=
  match items with
  | [] => []
  | x :: rest => (NumberToString (Z.of_nat i), x) :: indexed (S i) rest
  end.

Definition forIn (v : value) : obj :=
  match v with
  | VObj props => props
  | VArr items => indexed 0 items
  | _ => []
  end.

(** [String(v)]. *)
Fixpoint ToString (v : value) : jsstring :=
  match v with
  | VUndefined => js "undefined"
  | VNull => js "null"
  | VBool true => js "true"
  | VBool false => js "false"
  | VNum n => NumberToString n
  | VStr s => s
  | VArr items =>
      join (js ",")
        (map (fun x => match x with
                       | VUndefined | VNull => []
                       | _ => ToString x
                       end) items)
  | VObj _ => js "[object Object]"
  end.

(** ** Exceptions *)

Inductive exn : Type :=
| URIError
| OptionsException (message : jsstring).

Inductive result (A : Type) : Type :=
| Ok (a : A)
| Throw (e : exn).
Arguments Ok {A} a.
Arguments Throw {A} e.

Definition bind {A B : Type} (r : result A) (k : A -> result B) : result B :=
  match r with
  | Ok a => k a
  | Throw e => Throw e
  end.

Notation "x <- r ;; k" := (bind r (fun x => k))
  (at level 61, r at next level, right associativity).

(** ** [encodeURIComponent] *)

(** The characters that [encodeURIComponent] leaves as they are: letters,
    digits and [- _ . ! ~ * ' ( )]. *)
Definition uriUnescaped (c : N) : bool :=
  ((65 <=? c) && (c <=? 90)) || ((97 <=? c) && (c <=? 122))
  || ((48 <=? c) && (c <=? 57))
  || (c =? 45) || (c =? 95) || (c =? 46) || (c =? 33) || (c =? 126)
  || (c =? 42) || (c =? 39) || (c =? 40) || (c =? 41).

Definition hexDigit (d : N) : N := if d <? 10 then 48 + d else 55 + d.

(** [%XY] for the octet [b]. *)
Definition pct (b : N) : jsstring := [37; hexDigit (b / 16); hexDigit (b mod 16)].

(** The UTF-8 octets of a code point. *)
Definition utf8 (cp : N) : list N :=
  if cp <? 128 then [cp]
  else if cp <? 2048 then [192 + cp / 64; 128 + cp mod 64]
  else if cp <? 65536 then
    [224 + cp / 4096; 128 + (cp / 64) mod 64; 128 + cp mod 64]
  else
    [240 + cp / 262144; 128 + (cp / 4096) mod 64;
     128 + (cp / 64) mod 64; 128 + cp mod 64].

Definition escape (cp : N) : jsstring := concat (map pct (utf8 cp)).

Definition isHighSurrogate (c : N) : bool := (55296 <=? c) && (c <? 56320).
Definition isLowSurrogate (c : N) : bool := (56320 <=? c) && (c <? 57344).
Definition isCodeUnit (c : N) : bool := c <? 65536.

(** ECMAScript's [Encode(string, unescapedSet)]: [None] when the string
    holds a lone surrogate (the built-in throws [URIError]) or something
    that is not a 16-bit code unit. *)
Fixpoint Encode (unescaped : N -> bool) (s : jsstring) : option jsstring :=
  match s with
  | [] => Some []
  | c :: rest =>
      if unescaped c then option_map (cons c) (Encode unescaped rest)
      else if isHighSurrogate c then
        match rest with
        | lo :: rest' =>
            if isLowSurrogate lo
            then option_map
                   (app (escape (65536 + (c - 55296) * 1024 + (lo - 56320))))
                   (Encode unescaped rest')
            else None
        | [] => None
        end
      else if isLowSurrogate c || negb (isCodeUnit c) then None
      else option_map (app (escape c)) (Encode unescaped rest)
  end.

Definition encodeURIComponent (v : value) : result jsstring :=
  match Encode uriUnescaped (ToString v) with
  | Some s => Ok s
  | None => Throw URIError
  end.

(** ** [Array.prototype.sort] on strings

    The engine's algorithm is not fixed by the language, only its result:
    the stable arrangement in ascending order.  Insertion from the right
    computes it. *)

Fixpoint insert (k : jsstring) (l : list jsstring) : list jsstring :=
  match l with
  | [] => [k]
  | h :: t => if str_leb k h then k :: l else h :: insert k t
  end.

Definition sort (l : list jsstring) : list jsstring := fold_right insert [] l.

(** ** The collaborators *)

(** What [#getOAuth] hands to the [oauth-1.0a] constructor; the hash
    function it also passes belongs to the collaborator. *)
Record OAuthData : Type := {
  consumer_key : jsstring;
  consumer_secret : jsstring;
  signature_method : jsstring
}.

Class Collaborators : Type := {
  (** [new Url(address).hostname] *)
  Url_hostname : jsstring -> jsstring;
  (** [new Url(address, null, true).query]: the parsed query string *)
  Url_query : jsstring -> obj;
  (** [new OAuth(data).authorize({ url, method })] *)
  OAuth_authorize : OAuthData -> jsstring -> jsstring -> obj;
  (** [JSON.stringify(data)] *)
  JSON_stringify : value -> jsstring
}.

(** ** The client: [class WooCommerceRestApi] *)

(** The argument of the constructor.  [None] is an option left out. *)
Module Opt.
Record t : Type := {
  url : option jsstring;
  consumerKey : option jsstring;
  consumerSecret : option jsstring;
  wpAPIPrefix : option jsstring;
  version : option jsstring;
  encoding : option jsstring;
  queryStringAuth : option bool;
  port : option jsstring;
  timeout : value;
  axiosConfig : option obj
}.

(** [{ }] *)
Definition empty : t :=
  {| url := None; consumerKey := None; consumerSecret := None;
     wpAPIPrefix := None; version := None; encoding := None;
     queryStringAuth := None; port := None; timeout := VUndefined;
     axiosConfig := None |}.
End Opt.

(** The fields of [this]. *)
Record WooCommerceRestApi : Type := {
  classVersion : jsstring;
  url : jsstring;
  wpAPIPrefix : jsstring;
  version : jsstring;
  isHttps : bool;
  consumerKey : jsstring;
  consumerSecret : jsstring;
  encoding : jsstring;
  queryStringAuth : bool;
  port : jsstring;
  timeout : value;
  axiosConfig : obj
}.

(** [!s] for an optional string: left out or empty. *)
Definition missing (s : option jsstring) : bool :=
  match s with
  | Some (_ :: _) => false
  | _ => true
  end.

(** [s || d] for an optional string. *)
Definition orStr (s : option jsstring) (d : jsstring) : jsstring :=
  match s with
  | Some (c :: r) => c :: r
  | _ => d
  end.

Definition orBool (b : option bool) (d : bool) : bool :=
  match b with
  | Some true => true
  | _ => d
  end.

Definition orObj (o : option obj) (d : obj) : obj :=
  match o with
  | Some o => o
  | None => d
  end.

(** A code unit against the lower-case ASCII letter [d] of a regular
    expression with flag [i] and without flag [u]: the letter in either
    case matches, and nothing else. *)
Definition eqb_nocase (c d : N) : bool := (c =? d) || (c + 32 =? d).

(** [/^https/i.test(s)] *)
Definition test_https (s : jsstring) : bool :=
  match s with
  | h :: t1 :: t2 :: p :: s' :: _ =>
      eqb_nocase h 104 && eqb_nocase t1 116 && eqb_nocase t2 116
      && eqb_nocase p 112 && eqb_nocase s' 115
  | _ => false
  end.

(** [this.classVersion = ...] of the constructor, then
    [#setDefaultsOptions].  [this.url = opt.url] and the two credentials
    are copied as they are; the constructor has checked that they are
    there. *)
Definition setDefaultsOptions (classVersion : jsstring) (opt : Opt.t)
  : WooCommerceRestApi :=
  {| classVersion := classVersion;
     url := orStr (Opt.url opt) [];
     wpAPIPrefix := orStr (Opt.wpAPIPrefix opt) (js "wp-json");
     version := orStr (Opt.version opt) (js "wc/v3");
     isHttps := test_https (orStr (Opt.url opt) []);
     consumerKey := orStr (Opt.consumerKey opt) [];
     consumerSecret := orStr (Opt.consumerSecret opt) [];
     encoding := orStr (Opt.encoding opt) (js "utf8");
     queryStringAuth := orBool (Opt.queryStringAuth opt) false;
     port := orStr (Opt.port opt) [];
     timeout := Opt.timeout opt;
     axiosConfig := orObj (Opt.axiosConfig opt) [] |}.

(** [new WooCommerceRestApi(options)] *)
Definition constructor (options : option Opt.t) : result WooCommerceRestApi :=
  let options := match options with Some o => o | None => Opt.empty end in
  if missing (Opt.url options)
  then Throw (OptionsException (js "url is required"))
  else if missing (Opt.consumerKey options)
  then Throw (OptionsException (js "consumerKey is required"))
  else if missing (Opt.consumerSecret options)
  then Throw (OptionsException (js "consumerSecret is required"))
  else Ok (setDefaultsOptions (js "1.0.2") options).

(** [#getOAuth] *)
Definition getOAuth (this : WooCommerceRestApi) : OAuthData :=
  {| consumer_key := consumerKey this;
     consumer_secret := consumerSecret this;
     signature_method := js "HMAC-SHA256" |}.

(** [o[k] = v], the assignment, on an ordinary object.  It differs from
    [setProp], which defines the property, for one key: when [k] is
    [__proto__] and [o] has no property of its own with that name, the
    assignment reaches the setter that [Object.prototype] has for it, and
    no property is created.  (Given an object or [null] that setter
    replaces the prototype, which this model of an object does not hold;
    the flattener never assigns one under that key: its values there are
    not of type ['object'], and its bracketed keys end in []].) *)
Definition assign (k : jsstring) (v : value) (o : obj) : obj :=
  match getProp k o with
  | Some _ => setProp k v o
  | None => if str_eqb k (js "__proto__") then o else setProp k v o
  end.

(** [#parseParamsObject] *)
Definition parseParamsObject (params query : obj) : obj :=
  fold_left
    (fun query kv =>
       let key := fst kv in
       let value := snd kv in
       if typeof_object value then
         fold_left
           (fun query pv =>
              let itemKey := key ++ js "[" ++ fst pv ++ js "]" in
              assign itemKey (snd pv) query)
           (forIn value) query
       else assign key value query)
    params query.

Section Client.
Context {collab : Collaborators}.

(** The body of the second loop of [#normalizeQueryString]: one key
    appended to [queryString]. *)
Definition appendPair (query : obj) (queryString : result jsstring)
           (key : jsstring) : result jsstring :=
  queryString <- queryString ;;
  let queryString :=
    if negb (length queryString =? 0)%nat then queryString ++ js "&"
    else queryString in
  k <- encodeURIComponent (VStr key) ;;
  let queryString :=
    queryString ++ replaceAll (js "%5D") (js "]")
                     (replaceAll (js "%5B") (js "[") k) in
  let queryString := queryString ++ js "=" in
  v <- encodeURIComponent (readProp key query) ;;
  Ok (queryString ++ v).

(** [#normalizeQueryString] *)
Definition normalizeQueryString (url : jsstring) (params : obj)
  : result jsstring :=
  if notFound (indexOf (js "?") url) && (length (keys params) =? 0)%nat
  then Ok url
  else
    let query := Url_query url in
    let query := parseParamsObject params query in
    let values := sort (keys query) in
    queryString <- fold_left (appendPair query) values (Ok []) ;;
    Ok (split0 (js "?") url ++ js "?" ++ queryString).

(** [#getUrl] *)
Definition getUrl (this : WooCommerceRestApi) (endpoint : jsstring)
           (params : obj) : result jsstring :=
  let api := wpAPIPrefix this ++ js "/" in
  let url := if str_eqb (slice_last (url this)) (js "/")
             then url this else url this ++ js "/" in
  let url := url ++ api ++ version this ++ js "/" ++ endpoint in
  let url :=
    if negb (str_eqb (port this) []) then
      let hostname := Url_hostname url in
      replace url hostname (hostname ++ js ":" ++ port this)
    else url in
  if negb (isHttps this) then normalizeQueryString url params
  else Ok url.

(** The object literal that opens [#request]. *)
Definition baseOptions (this : WooCommerceRestApi) (url method : jsstring)
  : obj :=
  [ (js "url", VStr url);
    (js "method", VStr method);
    (js "responseEncoding", VStr (encoding this));
    (js "timeout", timeout this);
    (js "responseType", VStr (js "json"));
    (js "headers",
     VObj [ (js "User-Agent",
             VStr (js "WooCommerce REST API - JS Client/" ++ classVersion this));
            (js "Accept", VStr (js "application/json")) ]) ].

(** The authentication branch of [#request]. *)
Definition authOptions (this : WooCommerceRestApi) (url method : jsstring)
           (params : obj) (options : obj) : obj :=
  if isHttps this then
    let options :=
      if queryStringAuth this then
        setProp (js "params")
          (VObj [ (js "consumer_key", VStr (consumerKey this));
                  (js "consumer_secret", VStr (consumerSecret this)) ])
          options
      else
        setProp (js "auth")
          (VObj [ (js "username", VStr (consumerKey this));
                  (js "password", VStr (consumerSecret this)) ])
          options in
    setProp (js "params")
      (VObj (spread (spreadable (readProp (js "params") options)) params))
      options
  else
    setProp (js "params")
      (VObj (OAuth_authorize (getOAuth this) url method)) options.

(** [if (data) { ... }] of [#request]. *)
Definition bodyOptions (data : value) (options : obj) : obj :=
  if truthy data then
    let headers := spreadable (readProp (js "headers") options) in
    let headers :=
      setProp (js "Content-Type")
        (VStr (js "application/json;charset=utf-8")) headers in
    let options := setProp (js "headers") (VObj headers) options in
    setProp (js "data") (VStr (JSON_stringify data)) options
  else options.

(** [#request] of [src/index.js]; the result is the configuration handed
    to the transport, [axios(options)]. *)
Definition request (this : WooCommerceRestApi) (method endpoint : jsstring)
           (data : value) (params : obj) : result obj :=
  url <- getUrl this endpoint params ;;
  let options := baseOptions this url method in
  let options := authOptions this url method params options in
  let options := bodyOptions data options in
  let options := spread options (axiosConfig this) in
  Ok options.

(** The five verbs. *)
Definition delete this endpoint params :=
  request this (js "delete") endpoint VNull params.
Definition get this endpoint params :=
  request this (js "get") endpoint VNull params.
Definition options this endpoint params :=
  request this (js "options") endpoint VNull params.
Definition post this endpoint data params :=
  request this (js "post") endpoint data params.
Definition put this endpoint data params :=
  request this (js "put") endpoint data params.

End Client.

(** ** The revision in [src/unnamed/part_000]

    It differs from [src/index.js] in the class version, in [params] being
    optional down to [#normalizeQueryString], and in the order in which
    [#request] merges [this.axiosConfig] and the computed options. *)
Module Part000.
Section Client.
Context {collab : Collaborators}.

Definition constructor (options : option Opt.t) : result WooCommerceRestApi :=
let options := match options with Some o => o | None => Opt.empty end in
if missing (Opt.url options)
then Throw (OptionsException (js "url is required"))
else if missing (Opt.consumerKey options)
then Throw (OptionsException (js "consumerKey is required"))
else if missing (Opt.consumerSecret options)
then Throw (OptionsException (js "consumerSecret is required"))
else Ok (setDefaultsOptions (js "1.0.4") options).

(** [params = params || { }], then as in [src/index.js]. *)
Definition normalizeQueryString (url : jsstring) (params : option obj)
: result jsstring :=
let params := orObj params [] in
normalizeQueryString url params.

Definition getUrl (this : WooCommerceRestApi) (endpoint : jsstring)
         (params : option obj) : result jsstring :=
let api := wpAPIPrefix this ++ js "/" in
let url := if str_eqb (slice_last (url this)) (js "/")
           then url this else url this ++ js "/" in
let url := url ++ api ++ version this ++ js "/" ++ endpoint in
let url :=
  if negb (str_eqb (port this) []) then
    let hostname := Url_hostname url in
    replace url hostname (hostname ++ js ":" ++ port this)
  else url in
if negb (isHttps this) then normalizeQueryString url params
else Ok url.

(** [#request]; [...params] of a [params] left out spreads nothing.  The
  result is [config], handed to the transport instance. *)
Definition request (this : WooCommerceRestApi) (method endpoint : jsstring)
         (data : value) (params : option obj) : result obj :=
url <- getUrl this endpoint params ;;
let options := baseOptions this url method in
let options := authOptions this url method (orObj params []) options in
let options := bodyOptions data options in
let config := spread (axiosConfig this) options in
Ok config.

End Client.
End Part000.

(** ** A collaborator for the examples

    Adequate for addresses of the shape [scheme://host/path] without user
    information, port, query string or fragment, which is what the examples
    use: the host name is what stands between [//] and the next [/], and
    there are no query parameters.  The signer returns a fixed nonce and
    time stamp. *)

Fixpoint takeUntil (c : N) (s : jsstring) : jsstring :=
  match s with
  | [] => []
  | x :: s' => if x =? c then [] else x :: takeUntil c s'
  end.

Definition exampleHostname (address : jsstring) : jsstring :=
  match indexOf (js "//") address with
  | Some i => takeUntil 47 (skipn (i + 2) address)
  | None => []
  end.

Definition exampleAuthorize (data : OAuthData) (url method : jsstring) : obj :=
  [ (js "oauth_consumer_key", VStr (consumer_key data));
    (js "oauth_nonce", VStr (js "n0"));
    (js "oauth_signature_method", VStr (signature_method data));
    (js "oauth_timestamp", VNum 1700000000);
    (js "oauth_version", VStr (js "1.0"));
    (js "oauth_signature", VStr (js "c2ln")) ].

Definition exampleCollaborators : Collaborators :=
  {| Url_hostname := exampleHostname;
     Url_query := fun _ => [];
     OAuth_authorize := exampleAuthorize;
     JSON_stringify := fun _ => js "{}" |}.

(** ** Vocabulary of the statements *)

(** The writes [query[k] = v] that the flattener performs, in order: one
    per inner entry of a value with [typeof] ['object'], under the key
    [key[childKey]], and one per other value, under its own key. *)
Definition flatten (params : obj) : obj :=
  flat_map
    (fun kv =>
       if typeof_object (snd kv)
       then map (fun pv => (fst kv ++ js "[" ++ fst pv ++ js "]", snd pv))
                (forIn (snd kv))
       else [kv])
    params.

(** [k] is one of [ks]. *)
Definition hasKey (k : jsstring) (ks : list jsstring) : bool :=
  existsb (str_eqb k) ks.


(** A value that is neither an object nor an array. *)
Definition scalar (v : value) : bool :=
  match v with
  | VObj _ | VArr _ => false
  | _ => true
  end.

(** The assignments [o[k] = v] for the pairs of [writes], in order. *)
Definition assignAll (o : obj) (writes : obj) : obj :=
  fold_left (fun acc kv => assign (fst kv) (snd kv) acc) writes o.

(** [o] has a property of its own named [__proto__]. *)
Definition ownProto (o : obj) : bool :=
  match getProp (js "__proto__") o with
  | Some _ => true
  | None => false
  end.

(** The writes that create or replace a property of [o]: all of them when
    [o] has its own [__proto__], else those under another key. *)
Definition written (o : obj) (writes : obj) : obj :=
  if ownProto o then writes
  else filter (fun kv => negb (str_eqb (fst kv) (js "__proto__"))) writes.

(** A pair with the value as the text that is encoded for it. *)
Definition asText (kv : jsstring * value) : jsstring * jsstring :=
  (fst kv, ToString (snd kv)).

(** The flattened key/value pairs of a mapping, values as texts. *)
Definition texts (params : obj) : list (jsstring * jsstring) :=
  map asText (flatten params).

(** The write for one inner entry: [key[childKey]] with the value of the
    child. *)
Definition itemWrite (key : jsstring) (pv : jsstring * value)
  : jsstring * value :=
  (key ++ js "[" ++ fst pv ++ js "]", snd pv).


(** Two objects with the same properties, whatever their order. *)
Definition same_props (a b : obj) : Prop :=
  Permutation (keys a) (keys b) /\ forall k, getProp k a = getProp k b.

(** The characters that stay as they are in an emitted key. *)
Definition keyUnescaped (c : N) : bool := uriUnescaped c || (c =? 91) || (c =? 93).

(** [key=value] as the canonicalizer emits it, stated directly. *)
Definition pairText (kv : jsstring * value) : option jsstring :=
  match Encode keyUnescaped (fst kv), Encode uriUnescaped (ToString (snd kv)) with
  | Some k, Some v => Some (k ++ js "=" ++ v)
  | _, _ => None
  end.

(** The pairs of a merged query object in the order of emission. *)
Definition emitted (query : obj) : list (jsstring * value) :=
  map (fun k => (k, readProp k query)) (sort (keys query)).

Fixpoint traverse {A B : Type} (f : A -> option B) (l : list A) : option (list B) :=
  match l with
  | [] => Some []
  | a :: l' =>
      match f a, traverse f l' with
      | Some b, Some bs => Some (b :: bs)
      | _, _ => None
      end
  end.

(** [base] without one final slash. *)
Definition withoutSlash (base : jsstring) : jsstring :=
  if str_eqb (slice_last base) (js "/") then removelast base else base.

(** [this] with another base URL. *)
Definition withUrl (u : jsstring) (this : WooCommerceRestApi) : WooCommerceRestApi :=
  {| classVersion := classVersion this; url := u;
     wpAPIPrefix := wpAPIPrefix this; version := version this;
     isHttps := isHttps this; consumerKey := consumerKey this;
     consumerSecret := consumerSecret this; encoding := encoding this;
     queryStringAuth := queryStringAuth this; port := port this;
     timeout := timeout this; axiosConfig := axiosConfig this |}.

(** The options that [#request] has computed when it reaches the merge
    with [this.axiosConfig]. *)
Definition computedOptions {collab : Collaborators} (this : WooCommerceRestApi)
           (url method : jsstring) (data : value) (params : obj) : obj :=
  bodyOptions data (authOptions this url method params (baseOptions this url method)).

(** The credentials as query parameters and as Basic-auth object. *)
Definition credentialParams (this : WooCommerceRestApi) : obj :=
  [ (js "consumer_key", VStr (consumerKey this));
    (js "consumer_secret", VStr (consumerSecret this)) ].

Definition basicAuth (this : WooCommerceRestApi) : obj :=
  [ (js "username", VStr (consumerKey this));
    (js "password", VStr (consumerSecret this)) ].

(** The authentication that the selector chooses, read off a dispatched
    configuration: with HTTPS and query-string authentication, no [auth]
    object and query parameters that hold both credentials (the caller's
    value where the caller's params have the key); with HTTPS otherwise,
    the Basic-auth object and the caller's params as query parameters;
    without HTTPS, the signed parameter set. *)
Definition carriesSelectedAuth {collab : Collaborators}
           (this : WooCommerceRestApi) (url method : jsstring) (params : obj)
           (config : obj) : Prop :=
  if isHttps this then
    if queryStringAuth this then
      getProp (js "auth") config = None
      /\ exists q,
          getProp (js "params") config = Some (VObj q)
          /\ getProp (js "consumer_key") q
             = Some (match getProp (js "consumer_key") params with
                     | Some v => v
                     | None => VStr (consumerKey this)
                     end)
          /\ getProp (js "consumer_secret") q
             = Some (match getProp (js "consumer_secret") params with
                     | Some v => v
                     | None => VStr (consumerSecret this)
                     end)
    else
      getProp (js "auth") config = Some (VObj (basicAuth this))
      /\ exists q,
          getProp (js "params") config = Some (VObj q)
          /\ forall k, getProp k q = getProp k params
  else
    getProp (js "params") config
    = Some (VObj (OAuth_authorize (getOAuth this) url method)).

(** The URL of [#getUrl] before the port and the query parameters. *)
Definition assembledUrl (this : WooCommerceRestApi) (endpoint : jsstring)
  : jsstring :=
  withoutSlash (url this) ++ js "/" ++ wpAPIPrefix this ++ js "/"
  ++ version this ++ js "/" ++ endpoint.

(** No dollar sign, which is special in a replacement text. *)
Definition noDollar (s : jsstring) : bool := forallb (fun c => negb (c =? 36)) s.

(** A caller that builds a client and issues one GET with it. *)
Definition newThenGet {collab : Collaborators} (options : option Opt.t)
           (endpoint : jsstring) (params : obj) : result obj :=
  this <- constructor options ;;
  get this endpoint params.

(** Decidable form of "no key twice". *)
Fixpoint distinctb (ks : list jsstring) : bool :=
  match ks with
  | [] => true
  | k :: ks' => negb (hasKey k ks') && distinctb ks'
  end.

(** ** Inputs of the examples *)

Module Ex.
(** A plain-HTTP address without query string. *)
Definition address : jsstring := js "http://x/p".

Definition ab : obj := [(js "a", VNum 1); (js "b", VNum 2)].

(** [{ a: { b: 1 }, "a[b]": 2 }] and the same properties the other way
    round. *)
Definition clash1 : obj :=
  [(js "a", VObj [(js "b", VNum 1)]); (js "a[b]", VNum 2)].



(** [{ a: { } }] *)
Definition hollow : obj := [(js "a", VObj [])].

(** [{ "a[b]": "[x]" }] *)
Definition bracketed : obj := [(js "a[b]", VStr (js "[x]"))].

(** [{ a: { b: 1 } }] and [{ a: { b: { c: 1 } } }] *)
Definition nested1 : obj := [(js "a", VObj [(js "b", VNum 1)])].
Definition nested2 : obj :=
  [(js "a", VObj [(js "b", VObj [(js "c", VNum 1)])])].

(** [{ url: 'http://shop.test/', consumerKey: 'ck', consumerSecret: 'cs' }] *)
Definition shopOptions : Opt.t :=
  {| Opt.url := Some (js "http://shop.test/");
     Opt.consumerKey := Some (js "ck");
     Opt.consumerSecret := Some (js "cs");
     Opt.wpAPIPrefix := None; Opt.version := None; Opt.encoding := None;
     Opt.queryStringAuth := None; Opt.port := None;
     Opt.timeout := VUndefined; Opt.axiosConfig := None |}.

(** The same without [consumerSecret]. *)
Definition noSecret : Opt.t :=
  {| Opt.url := Some (js "http://shop.test/");
     Opt.consumerKey := Some (js "ck");
     Opt.consumerSecret := None;
     Opt.wpAPIPrefix := None; Opt.version := None; Opt.encoding := None;
     Opt.queryStringAuth := None; Opt.port := None;
     Opt.timeout := VUndefined; Opt.axiosConfig := None |}.

(** An HTTPS shop with query-string authentication and the given
    transport overrides. *)
Definition secureOptions (overrides : obj) : Opt.t :=
  {| Opt.url := Some (js "https://shop.test");
     Opt.consumerKey := Some (js "ck");
     Opt.consumerSecret := Some (js "cs");
     Opt.wpAPIPrefix := None; Opt.version := None; Opt.encoding := None;
     Opt.queryStringAuth := Some true; Opt.port := None;
     Opt.timeout := VUndefined; Opt.axiosConfig := Some overrides |}.

(** An HTTPS shop with the default, Basic, authentication. *)
Definition basicOptions : Opt.t :=
  {| Opt.url := Some (js "https://shop.test");
     Opt.consumerKey := Some (js "ck");
     Opt.consumerSecret := Some (js "cs");
     Opt.wpAPIPrefix := None; Opt.version := None; Opt.encoding := None;
     Opt.queryStringAuth := None; Opt.port := None;
     Opt.timeout := VUndefined; Opt.axiosConfig := None |}.

Definition secureShop (overrides : obj) : WooCommerceRestApi :=
  setDefaultsOptions (js "1.0.2") (secureOptions overrides).

(** [{ auth: { username: 'u', password: 'p' } }] *)
Definition authOverride : obj :=
  [(js "auth", VObj [(js "username", VStr (js "u"));
                     (js "password", VStr (js "p"))])].

(** [{ params: { page: 1 } }] *)
Definition paramsOverride : obj :=
  [(js "params", VObj [(js "page", VNum 1)])].

(** [{ timeout: 5000 }] *)
Definition timeoutOverride : obj := [(js "timeout", VNum 5000)].

(** [{ consumer_key: 'mine' }] *)
Definition ownKey : obj := [(js "consumer_key", VStr (js "mine"))].

(** [{ url: 'http://p/', consumerKey: 'ck', consumerSecret: 'cs',
      port: '8080' }] *)
Definition portOptions : Opt.t :=
  {| Opt.url := Some (js "http://p/");
     Opt.consumerKey := Some (js "ck");
     Opt.consumerSecret := Some (js "cs");
     Opt.wpAPIPrefix := None; Opt.version := None; Opt.encoding := None;
     Opt.queryStringAuth := None; Opt.port := Some (js "8080");
     Opt.timeout := VUndefined; Opt.axiosConfig := None |}.

(** [{ a: 1, gone: null, b: 'x' }] *)
Definition withNull : obj :=
  [(js "a", VNum 1); (js "gone", VNull); (js "b", VStr (js "x"))].

(** An object with two properties of its own, [__proto__] holding ['x']
    and [a] holding [1], as [JSON.parse] builds it from such a text. *)
Definition withProto : obj :=
  [(js "__proto__", VStr (js "x")); (js "a", VNum 1)].

(** [{ url: 'http://shop.test/', consumerKey: 'ck', consumerSecret: 'cs',
      port: '8080' }] *)
Definition shopPortOptions : Opt.t :=
  {| Opt.url := Some (js "http://shop.test/");
     Opt.consumerKey := Some (js "ck");
     Opt.consumerSecret := Some (js "cs");
     Opt.wpAPIPrefix := None; Opt.version := None; Opt.encoding := None;
     Opt.queryStringAuth := None; Opt.port := Some (js "8080");
     Opt.timeout := VUndefined; Opt.axiosConfig := None |}.

(** [{ per_page: 5 }] *)
Definition perPage : obj := [(js "per_page", VNum 5)].
(** [{ url: 'http://Shop.Test/', consumerKey: 'ck', consumerSecret: 'cs',
      port: '8080' }] *)
Definition mixedCasePortOptions : Opt.t :=
  {| Opt.url := Some (js "http://Shop.Test/");
     Opt.consumerKey := Some (js "ck");
     Opt.consumerSecret := Some (js "cs");
     Opt.wpAPIPrefix := None; Opt.version := None; Opt.encoding := None;
     Opt.queryStringAuth := None; Opt.port := Some (js "8080");
     Opt.timeout := VUndefined; Opt.axiosConfig := None |}.

(** [{ include: [7, 9] }] *)
Definition withArray : obj := [(js "include", VArr [VNum 7; VNum 9])].

(** A mapping whose value holds a lone high surrogate. *)
Definition loneSurrogate : obj := [(js "q", VStr [55357])].

(** The client of [shopOptions]. *)
Definition shop : WooCommerceRestApi :=
  setDefaultsOptions (js "1.0.2") shopOptions.

End Ex.

(** ** Vocabulary of the further properties *)

(** The local [url] of [#getUrl] when it reaches the last test: assembled,
    and with the port when one is configured. *)
Definition builtUrl {collab : Collaborators} (this : WooCommerceRestApi)
           (endpoint : jsstring) : jsstring :=
  let api := wpAPIPrefix this ++ js "/" in
  let url := if str_eqb (slice_last (url this)) (js "/")
             then url this else url this ++ js "/" in
  let url := url ++ api ++ version this ++ js "/" ++ endpoint in
  if negb (str_eqb (port this) []) then
    let hostname := Url_hostname url in
    replace url hostname (hostname ++ js ":" ++ port this)
  else url.

(** The headers of a request without body, and of one with. *)
Definition plainHeaders (this : WooCommerceRestApi) : obj :=
  [ (js "User-Agent",
     VStr (js "WooCommerce REST API - JS Client/" ++ classVersion this));
    (js "Accept", VStr (js "application/json")) ].

Definition jsonHeaders (this : WooCommerceRestApi) : obj :=
  plainHeaders this
  ++ [ (js "Content-Type", VStr (js "application/json;charset=utf-8")) ].

(** The headers and the body that a request computes for [data]. *)
Definition headersFor (this : WooCommerceRestApi) (data : value) : obj :=
  if truthy data then jsonHeaders this else plainHeaders this.

Definition bodyFor {collab : Collaborators} (data : value) : option value :=
  if truthy data then Some (VStr (JSON_stringify data)) else None.


(** How often the code unit [c] occurs in [s]. *)
Definition count (c : N) (s : jsstring) : nat := count_occ N.eq_dec s c.

(** What a canonical query string is made of: the characters that stay as
    they are in a key, and [%], [=], [&]. *)
Definition queryChar (c : N) : bool :=
  keyUnescaped c || (c =? 37) || (c =? 61) || (c =? 38).

(** [c.toLowerCase()] on ASCII. *)
Definition lowerAscii (c : N) : N :=
  if (65 <=? c) && (c <=? 90) then c + 32 else c.

(** The keys [0], [1], ... of an array of [n] items. *)
Definition indexKeys (n : nat) : list jsstring :=
  map (fun i => NumberToString (Z.of_nat i)) (seq 0 n).

(** The five verbs of [src/unnamed/part_000]; [params] may be left out. *)
Module Part000Verbs.
Section Client.
Context {collab : Collaborators}.

Definition delete this endpoint (params : option obj) :=
  Part000.request this (js "delete") endpoint VNull params.
Definition get this endpoint (params : option obj) :=
  Part000.request this (js "get") endpoint VNull params.
Definition options this endpoint (params : option obj) :=
  Part000.request this (js "options") endpoint VNull params.
Definition post this endpoint data (params : option obj) :=
  Part000.request this (js "post") endpoint data params.
Definition put this endpoint data (params : option obj) :=
  Part000.request this (js "put") endpoint data params.

End Client.
End Part000Verbs.

(** A collaborator that, like [url-parse], reports the host name in lower
    case; otherwise as [exampleCollaborators]. *)
Definition lowercasingCollaborators : Collaborators :=
  {| Url_hostname := fun address => map lowerAscii (exampleHostname address);
     Url_query := fun _ => [];
     OAuth_authorize := exampleAuthorize;
     JSON_stringify := fun _ => js "{}" |}.

(* ================================================================== *)
(** * Part II: properties *)
(* ================================================================== *)

(** ** Strings *)

Lemma str_eqb_eq (a b : jsstring) : str_eqb a b = true <-> a = b.
Proof.
  revert b; induction a as [|x a IH]; intros [|y b]; simpl;
    try (split; [discriminate | discriminate]); try tauto.
  rewrite andb_true_iff, N.eqb_eq, IH.
  split; [intros [-> ->]; reflexivity | intros H; injection H; auto].
Qed.

Lemma str_eqb_refl (a : jsstring) : str_eqb a a = true.
Proof. apply str_eqb_eq; reflexivity. Qed.

Lemma str_eqb_neq (a b : jsstring) : str_eqb a b = false <-> a <> b.
Proof.
  rewrite <- str_eqb_eq. destruct (str_eqb a b); split; congruence.
Qed.


Lemma str_leb_refl (a : jsstring) : str_leb a a = true.
Proof.
  induction a as [|x a IH]; simpl; [reflexivity|].
  rewrite N.ltb_irrefl; exact IH.
Qed.

Lemma str_leb_total (a b : jsstring) : str_leb a b = true \/ str_leb b a = true.
Proof.
  revert b; induction a as [|x a IH]; intros [|y b]; simpl; auto.
  destruct (N.ltb_spec x y), (N.ltb_spec y x); auto; lia.
Qed.

Lemma str_leb_antisym (a b : jsstring) :
  str_leb a b = true -> str_leb b a = true -> a = b.
Proof.
  revert b; induction a as [|x a IH]; intros [|y b]; simpl;
    try reflexivity; try discriminate.
  destruct (N.ltb_spec x y), (N.ltb_spec y x); try discriminate; try lia.
  intros H1 H2. replace y with x by lia. f_equal; auto.
Qed.

Lemma str_leb_trans (a b c : jsstring) :
  str_leb a b = true -> str_leb b c = true -> str_leb a c = true.
Proof.
  revert b c; induction a as [|x a IH]; intros [|y b] [|z c]; simpl;
    try reflexivity; try discriminate.
  destruct (N.ltb_spec x y), (N.ltb_spec y x), (N.ltb_spec y z),
    (N.ltb_spec z y), (N.ltb_spec x z), (N.ltb_spec z x);
    try discriminate; try reflexivity; try lia.
  apply IH.
Qed.

(** ** Sorting *)

Lemma insert_perm (k : jsstring) (l : list jsstring) :
  Permutation (k :: l) (insert k l).
Proof.
  induction l as [|h t IH]; simpl; [reflexivity|].
  destruct (str_leb k h); [reflexivity|].
  rewrite perm_swap. apply perm_skip, IH.
Qed.

Lemma sort_perm (l : list jsstring) : Permutation l (sort l).
Proof.
  induction l as [|h t IH]; simpl; [reflexivity|].
  rewrite <- insert_perm. apply perm_skip, IH.
Qed.



Lemma insert_comm (a b : jsstring) (l : list jsstring) :
  insert a (insert b l) = insert b (insert a l).
Proof.
  induction l as [|h t IH]; simpl.
  - destruct (str_leb a b) eqn:Eab, (str_leb b a) eqn:Eba; try reflexivity.
    + rewrite (str_leb_antisym a b Eab Eba); reflexivity.
    + destruct (str_leb_total a b); congruence.
  - destruct (str_leb b h) eqn:Ebh, (str_leb a h) eqn:Eah; simpl;
      rewrite ?Ebh, ?Eah.
    + destruct (str_leb a b) eqn:Eab, (str_leb b a) eqn:Eba; rewrite ?Eah, ?Ebh;
        try reflexivity.
      * rewrite (str_leb_antisym a b Eab Eba); reflexivity.
      * destruct (str_leb_total a b); congruence.
    + destruct (str_leb a b) eqn:Eab; [|reflexivity].
      rewrite (str_leb_trans a b h Eab Ebh) in Eah; discriminate.
    + destruct (str_leb b a) eqn:Eba; [|reflexivity].
      rewrite (str_leb_trans b a h Eba Eah) in Ebh; discriminate.
    + rewrite IH; reflexivity.
Qed.

(** The sorted arrangement depends on the elements only. *)
Lemma sort_permutation (l1 l2 : list jsstring) :
  Permutation l1 l2 -> sort l1 = sort l2.
Proof.
  induction 1 as [| x l l' _ IH | x y l | l l' l'' _ IH1 _ IH2]; simpl.
  - reflexivity.
  - rewrite IH; reflexivity.
  - apply insert_comm.
  - congruence.
Qed.

(** ** Objects *)

Lemma hasKey_In (k : jsstring) (ks : list jsstring) :
  hasKey k ks = true <-> In k ks.
Proof.
  unfold hasKey. rewrite existsb_exists. split.
  - intros [x [Hin Heq]]. apply str_eqb_eq in Heq; subst; exact Hin.
  - intros Hin. exists k. split; [exact Hin | apply str_eqb_refl].
Qed.


Lemma getProp_None (k : jsstring) (o : obj) :
  getProp k o = None <-> ~ In k (keys o).
Proof.
  induction o as [|[k' v'] o IH]; simpl.
  - tauto.
  - destruct (str_eqb k k') eqn:E.
    + apply str_eqb_eq in E; subst. split; [discriminate | tauto].
    + apply str_eqb_neq in E. rewrite IH. split.
      * intros H [H1|H1]; [congruence | tauto].
      * tauto.
Qed.

Lemma getProp_In (k : jsstring) (v : value) (o : obj) :
  getProp k o = Some v -> In (k, v) o.
Proof.
  induction o as [|[k' v'] o IH]; simpl; [discriminate|].
  destruct (str_eqb k k') eqn:E.
  - apply str_eqb_eq in E; subst. intros H; injection H as ->; auto.
  - auto.
Qed.

Lemma In_getProp (k : jsstring) (v : value) (o : obj) :
  NoDup (keys o) -> In (k, v) o -> getProp k o = Some v.
Proof.
  induction o as [|[k' v'] o IH]; simpl; [tauto|].
  intros HN [H|H].
  - injection H as -> ->. rewrite str_eqb_refl; reflexivity.
  - inversion HN as [|? ? Hnot HN']; subst.
    destruct (str_eqb k k') eqn:E.
    + apply str_eqb_eq in E; subst. exfalso; apply Hnot.
      change k' with (fst (k', v)). apply in_map, H.
    + auto.
Qed.

Lemma getProp_setProp_eq (k : jsstring) (v : value) (o : obj) :
  getProp k (setProp k v o) = Some v.
Proof.
  induction o as [|[k' v'] o IH]; simpl.
  - rewrite str_eqb_refl; reflexivity.
  - destruct (str_eqb k k') eqn:E; simpl; rewrite E; auto.
Qed.

Lemma getProp_setProp_neq (k k0 : jsstring) (v : value) (o : obj) :
  k <> k0 -> getProp k (setProp k0 v o) = getProp k o.
Proof.
  intros Hne. induction o as [|[k' v'] o IH]; simpl.
  - apply str_eqb_neq in Hne. rewrite Hne; reflexivity.
  - destruct (str_eqb k0 k') eqn:E; simpl.
    + apply str_eqb_eq in E; subst.
      apply str_eqb_neq in Hne. rewrite Hne; reflexivity.
    + destruct (str_eqb k k'); auto.
Qed.

Lemma getProp_setProp (k k0 : jsstring) (v : value) (o : obj) :
  getProp k (setProp k0 v o) = if str_eqb k k0 then Some v else getProp k o.
Proof.
  destruct (str_eqb k k0) eqn:E.
  - apply str_eqb_eq in E; subst. apply getProp_setProp_eq.
  - apply str_eqb_neq in E. apply getProp_setProp_neq, E.
Qed.

Lemma keys_setProp (k : jsstring) (v : value) (o : obj) :
  keys (setProp k v o) = if hasKey k (keys o) then keys o else keys o ++ [k].
Proof.
  induction o as [|[k' v'] o IH]; simpl; [reflexivity|].
  destruct (str_eqb k k') eqn:E; simpl; [reflexivity|].
  rewrite IH. fold (hasKey k (keys o)). destruct (hasKey k (keys o)); reflexivity.
Qed.

Lemma setProp_fresh (k : jsstring) (v : value) (o : obj) :
  ~ In k (keys o) -> setProp k v o = o ++ [(k, v)].
Proof.
  induction o as [|[k' v'] o IH]; simpl; intros Hn; [reflexivity|].
  destruct (str_eqb k k') eqn:E.
  - apply str_eqb_eq in E; subst; tauto.
  - rewrite IH by tauto; reflexivity.
Qed.

Lemma spread_cons (a : obj) (kv : jsstring * value) (b : obj) :
  spread a (kv :: b) = spread (setProp (fst kv) (snd kv) a) b.
Proof. reflexivity. Qed.

Lemma spread_app (a b c : obj) : spread a (b ++ c) = spread (spread a b) c.
Proof. unfold spread. apply fold_left_app. Qed.

(** A spread reads as its right operand where that one has the key. *)
Lemma getProp_spread (k : jsstring) (a b : obj) :
  NoDup (keys b) ->
  getProp k (spread a b) =
  match getProp k b with
  | Some v => Some v
  | None => getProp k a
  end.
Proof.
  revert a; induction b as [|[k' v'] b IH]; intros a HN; [reflexivity|].
  inversion HN as [|? ? Hnot HN']; subst.
  rewrite spread_cons, IH by exact HN'. simpl.
  rewrite getProp_setProp.
  destruct (str_eqb k k') eqn:E.
  - apply str_eqb_eq in E; subst.
    apply getProp_None in Hnot. rewrite Hnot; reflexivity.
  - reflexivity.
Qed.

Lemma spread_fresh (a b : obj) : NoDup (keys (a ++ b)) -> spread a b = a ++ b.
Proof.
  revert a; induction b as [|[k v] b IH]; intros a Hd.
  - rewrite app_nil_r; reflexivity.
  - rewrite spread_cons. simpl fst; simpl snd.
    unfold keys in Hd. rewrite map_app in Hd. simpl in Hd.
    rewrite setProp_fresh.
    + rewrite IH; [rewrite <- app_assoc; reflexivity|].
      unfold keys. rewrite !map_app. simpl. rewrite <- app_assoc. exact Hd.
    + intros Hin. apply NoDup_remove_2 in Hd. apply Hd.
      apply in_or_app; left; exact Hin.
Qed.

Lemma spread_nil_flat (b : obj) : NoDup (keys b) -> spread [] b = b.
Proof. intros HN. apply (spread_fresh [] b HN). Qed.

(** ** Objects up to the order of their properties *)

Lemma same_props_refl (a : obj) : same_props a a.
Proof. split; [reflexivity | reflexivity]. Qed.







(** ** The parameter flattener *)

Lemma inner_loop_assign (key : jsstring) (l query : obj) :
  fold_left
    (fun query pv =>
       let itemKey := key ++ js "[" ++ fst pv ++ js "]" in
       assign itemKey (snd pv) query) l query =
  assignAll query
    (map (fun pv => (key ++ js "[" ++ fst pv ++ js "]", snd pv)) l).
Proof.
  unfold assignAll. revert query; induction l as [|pv l IH]; intros query;
    [reflexivity|].
  cbn [fold_left map fst snd]. apply IH.
Qed.

Lemma assignAll_app (o l1 l2 : obj) :
  assignAll o (l1 ++ l2) = assignAll (assignAll o l1) l2.
Proof. unfold assignAll. apply fold_left_app. Qed.

Lemma parseParamsObject_cons (kv : jsstring * value) (params query : obj) :
  parseParamsObject (kv :: params) query =
  parseParamsObject params
    (if typeof_object (snd kv)
     then assignAll query
            (map (fun pv => (fst kv ++ js "[" ++ fst pv ++ js "]", snd pv))
                 (forIn (snd kv)))
     else assign (fst kv) (snd kv) query).
Proof.
  rewrite <- inner_loop_assign. reflexivity.
Qed.

(** The flattener performs the assignments of [flatten], in order. *)
Lemma parseParamsObject_writes (params query : obj) :
  parseParamsObject params query = assignAll query (flatten params).
Proof.
  revert query; induction params as [|kv params IH]; intros query;
    [reflexivity|].
  rewrite parseParamsObject_cons, IH. unfold flatten.
  cbn [flat_map]. cbv beta. rewrite assignAll_app.
  destruct kv as [k v]; destruct v; reflexivity.
Qed.

Lemma assign_other (k : jsstring) (v : value) (o : obj) :
  k <> js "__proto__" -> assign k v o = setProp k v o.
Proof.
  intros Hk. unfold assign. apply str_eqb_neq in Hk. rewrite Hk.
  destruct (getProp k o); reflexivity.
Qed.

Lemma assign_own (k : jsstring) (v : value) (o : obj) :
  ownProto o = true -> assign k v o = setProp k v o.
Proof.
  intros Ho. unfold assign. destruct (getProp k o) eqn:E; [reflexivity|].
  destruct (str_eqb k (js "__proto__")) eqn:Ek; [|reflexivity].
  apply str_eqb_eq in Ek. subst k. unfold ownProto in Ho. rewrite E in Ho.
  discriminate Ho.
Qed.

Lemma assign_proto_absent (v : value) (o : obj) :
  ownProto o = false -> assign (js "__proto__") v o = o.
Proof.
  unfold ownProto, assign. destruct (getProp (js "__proto__") o);
    [discriminate | reflexivity].
Qed.

(** An assignment neither gives an object its own [__proto__] nor takes
    it away. *)
Lemma ownProto_assign (k : jsstring) (v : value) (o : obj) :
  ownProto (assign k v o) = ownProto o.
Proof.
  destruct (ownProto o) eqn:Ho.
  - rewrite assign_own by exact Ho. unfold ownProto in *.
    rewrite getProp_setProp. destruct (str_eqb (js "__proto__") k);
      [reflexivity | exact Ho].
  - destruct (str_eqb k (js "__proto__")) eqn:Ek.
    + apply str_eqb_eq in Ek. subst k.
      rewrite assign_proto_absent by exact Ho. exact Ho.
    + apply str_eqb_neq in Ek. rewrite assign_other by exact Ek.
      unfold ownProto in *. rewrite getProp_setProp_neq by congruence.
      exact Ho.
Qed.

Lemma ownProto_assignAll (o l : obj) : ownProto (assignAll o l) = ownProto o.
Proof.
  revert o; induction l as [|kv l IH]; intros o; [reflexivity|].
  change (assignAll o (kv :: l))
    with (assignAll (assign (fst kv) (snd kv) o) l).
  rewrite IH. apply ownProto_assign.
Qed.

(** The assignments, as the spread of those that take effect. *)
Lemma assignAll_spread (o l : obj) : assignAll o l = spread o (written o l).
Proof.
  revert o; induction l as [|[k v] l IH]; intros o.
  - unfold written. destruct (ownProto o); reflexivity.
  - change (assignAll o ((k, v) :: l)) with (assignAll (assign k v o) l).
    rewrite IH. unfold written. rewrite ownProto_assign.
    destruct (ownProto o) eqn:Ho.
    + rewrite assign_own by exact Ho. reflexivity.
    + cbn [filter fst]. destruct (str_eqb k (js "__proto__")) eqn:Ek.
      * apply str_eqb_eq in Ek. subst k.
        rewrite assign_proto_absent by exact Ho. reflexivity.
      * apply str_eqb_neq in Ek. rewrite assign_other by exact Ek.
        reflexivity.
Qed.

Lemma parseParamsObject_flatten (params query : obj) :
  parseParamsObject params query
  = spread query (written query (flatten params)).
Proof. rewrite parseParamsObject_writes. apply assignAll_spread. Qed.

Lemma written_keys_In (o l : obj) (k : jsstring) :
  In k (keys (written o l))
  <-> In k (keys l) /\ (k <> js "__proto__" \/ ownProto o = true).
Proof.
  unfold written. destruct (ownProto o).
  - split; [auto | tauto].
  - unfold keys. rewrite !in_map_iff. split.
    + intros [kv [E Hin]]. apply filter_In in Hin as [Hin Hk].
      apply negb_true_iff, str_eqb_neq in Hk. subst k.
      split; [exists kv; auto | left; exact Hk].
    + intros [[kv [E Hin]] [Hk|Hk]]; [|discriminate Hk].
      exists kv. split; [exact E|]. apply filter_In. split; [exact Hin|].
      apply negb_true_iff, str_eqb_neq. congruence.
Qed.


Lemma written_all (o l : obj) :
  ~ In (js "__proto__") (keys l) -> written o l = l.
Proof.
  intros Hn. unfold written. destruct (ownProto o); [reflexivity|].
  induction l as [|[k v] l IH]; [reflexivity|].
  cbn [filter fst]. cbn [keys map fst In] in Hn.
  destruct (str_eqb k (js "__proto__")) eqn:Ek.
  - apply str_eqb_eq in Ek. exfalso. apply Hn. left. exact Ek.
  - cbn [negb]. f_equal. apply IH. intros H. apply Hn. right. exact H.
Qed.

Lemma getProp_assign_neq (k k0 : jsstring) (v : value) (o : obj) :
  k <> k0 -> getProp k (assign k0 v o) = getProp k o.
Proof.
  intros Hk. unfold assign.
  destruct (getProp k0 o);
    [|destruct (str_eqb k0 (js "__proto__")); [reflexivity|]];
    apply getProp_setProp_neq, Hk.
Qed.

Lemma assignAll_cons (o : obj) (kv : jsstring * value) (l : obj) :
  assignAll o (kv :: l) = assignAll (assign (fst kv) (snd kv) o) l.
Proof. reflexivity. Qed.

(** A key that is not written keeps what it had. *)
Lemma getProp_assignAll_absent (k : jsstring) (o l : obj) :
  ~ In k (keys l) -> getProp k (assignAll o l) = getProp k o.
Proof.
  revert o; induction l as [|[k' v'] l IH]; intros o Hn; [reflexivity|].
  rewrite assignAll_cons, IH by (intros H; apply Hn; right; exact H).
  cbn [fst snd]. apply getProp_assign_neq.
  intros ->. apply Hn. left; reflexivity.
Qed.

(** The last write to a key decides its value, when the write creates or
    replaces a property. *)
Lemma getProp_assignAll_last (k : jsstring) (v : value)
      (o before after : obj) :
  ~ In k (keys after) ->
  k <> js "__proto__" \/ ownProto o = true ->
  getProp k (assignAll o (before ++ (k, v) :: after)) = Some v.
Proof.
  intros Hn Hk. rewrite assignAll_app, assignAll_cons.
  rewrite getProp_assignAll_absent by exact Hn. cbn [fst snd].
  destruct Hk as [Hk|Hk].
  - rewrite assign_other by exact Hk. apply getProp_setProp_eq.
  - rewrite assign_own by (rewrite ownProto_assignAll; exact Hk).
    apply getProp_setProp_eq.
Qed.

Lemma flatten_In (params : obj) (k : jsstring) (v : value) :
  In (k, v) params -> typeof_object v = false -> In (k, v) (flatten params).
Proof.
  intros Hin Hv. unfold flatten. apply in_flat_map. exists (k, v).
  split; [exact Hin|]. cbn [fst snd]. rewrite Hv. left. reflexivity.
Qed.

Lemma last_write (k : jsstring) (l : obj) :
  In k (keys l) ->
  exists before v after, l = before ++ (k, v) :: after /\ ~ In k (keys after).
Proof.
  induction l as [|[k0 v0] l IH]; intros Hin; [destruct Hin|].
  destruct (hasKey k (keys l)) eqn:E.
  - apply hasKey_In in E. destruct (IH E) as (before & v & after & Hl & Hn).
    exists ((k0, v0) :: before), v, after. rewrite Hl.
    split; [reflexivity | exact Hn].
  - assert (Hn : ~ In k (keys l))
      by (intros H; apply hasKey_In in H; congruence).
    destruct Hin as [Hk|Hin]; [|contradiction].
    cbn [fst] in Hk. subst k0. exists [], v0, l.
    split; [reflexivity | exact Hn].
Qed.

(** A key that is written holds the value of one of its writes. *)
Lemma getProp_assignAll_written (k : jsstring) (o l : obj) :
  In k (keys l) ->
  k <> js "__proto__" \/ ownProto o = true ->
  exists v, In (k, v) l /\ getProp k (assignAll o l) = Some v.
Proof.
  intros Hin Hk. destruct (last_write k l Hin) as (before & v & after & Hl & Hn).
  exists v. rewrite Hl. split.
  - apply in_or_app. right. left. reflexivity.
  - apply getProp_assignAll_last; assumption.
Qed.

Lemma flatten_flat (params : obj) :
  Forall (fun kv => typeof_object (snd kv) = false) params ->
  flatten params = params.
Proof.
  induction 1 as [|kv params H _ IH]; [reflexivity|].
  unfold flatten. cbn [flat_map]. cbv beta. rewrite H. cbn [app]. f_equal. exact IH.
Qed.


(** ** Percent-encoding *)

Lemma hexDigit_not_percent (d : N) : hexDigit d <> 37.
Proof. unfold hexDigit. destruct (N.ltb_spec d 10); lia. Qed.

Lemma hexDigit_inj (d d' : N) : hexDigit d = hexDigit d' -> d = d'.
Proof.
  unfold hexDigit.
  destruct (N.ltb_spec d 10), (N.ltb_spec d' 10); lia.
Qed.

Lemma pct_inj (x b : N) : pct x = pct b -> x = b.
Proof.
  unfold pct. intros H. injection H as H1 H2.
  apply hexDigit_inj in H1, H2.
  rewrite (N.div_mod x 16), (N.div_mod b 16) by discriminate.
  rewrite H1, H2. reflexivity.
Qed.

Lemma prefixb_app_same (p rest : jsstring) : prefixb p (p ++ rest) = true.
Proof.
  induction p as [|c p IH]; cbn [prefixb app]; [reflexivity|].
  rewrite N.eqb_refl. exact IH.
Qed.

Lemma prefixb_pct_other (x b : N) (rest : jsstring) :
  x <> b -> prefixb (pct b) (pct x ++ rest) = false.
Proof.
  intros Hne. unfold pct. cbn [prefixb app]. rewrite N.eqb_refl.
  destruct (N.eqb_spec (hexDigit (b / 16)) (hexDigit (x / 16))) as [E1|E1];
    [|reflexivity].
  destruct (N.eqb_spec (hexDigit (b mod 16)) (hexDigit (x mod 16))) as [E2|E2];
    [|reflexivity].
  exfalso. apply Hne. apply pct_inj. unfold pct. rewrite E1, E2. reflexivity.
Qed.

Lemma prefixb_pct_literal (c b : N) (rest : jsstring) :
  c <> 37 -> prefixb (pct b) (c :: rest) = false.
Proof.
  intros Hne. unfold pct. cbn [prefixb].
  destruct (N.eqb_spec 37 c); [congruence | reflexivity].
Qed.

(** Quotients and remainders as unknown naturals, for [lia]. *)
Ltac forget_divmod :=
  repeat match goal with
         | |- context [?a / ?b] =>
             let q := fresh "q" in set (q := a / b) in *; clearbody q
         | |- context [?a mod ?b] =>
             let r := fresh "r" in set (r := a mod b) in *; clearbody r
         end.

(** The octets of a code point other than the ASCII character [b] are all
    other than [b]. *)
Lemma utf8_other (cp b : N) :
  b < 128 -> cp <> b -> Forall (fun x => x <> b) (utf8 cp).
Proof.
  intros Hb Hne. unfold utf8.
  destruct (N.ltb_spec cp 128);
    [apply Forall_cons; [exact Hne | apply Forall_nil]|].
  destruct (N.ltb_spec cp 2048); [|destruct (N.ltb_spec cp 65536)];
    repeat (apply Forall_cons; [forget_divmod; lia|]); apply Forall_nil.
Qed.

Lemma utf8_ascii (c : N) : c < 128 -> utf8 c = [c].
Proof.
  intros H. unfold utf8. destruct (N.ltb_spec c 128); [reflexivity | lia].
Qed.

Lemma escape_ascii (c : N) : c < 128 -> escape c = pct c.
Proof.
  intros H. unfold escape. rewrite utf8_ascii by exact H.
  cbn [map concat]. apply app_nil_r.
Qed.

(** *** The global replacement, chunk by chunk *)

Lemma replaceAll_literal (b c : N) (rep rest : jsstring) :
  c <> 37 ->
  replaceAll (pct b) rep (c :: rest) = c :: replaceAll (pct b) rep rest.
Proof.
  intros Hne. unfold replaceAll. cbn [replaceAll_from].
  rewrite prefixb_pct_literal by exact Hne. reflexivity.
Qed.

Lemma replaceAll_pct_same (b : N) (rep rest : jsstring) :
  replaceAll (pct b) rep (pct b ++ rest) = rep ++ replaceAll (pct b) rep rest.
Proof.
  unfold replaceAll.
  change (pct b ++ rest)
    with (37 :: hexDigit (b / 16) :: hexDigit (b mod 16) :: rest).
  cbn [replaceAll_from].
  change (37 :: hexDigit (b / 16) :: hexDigit (b mod 16) :: rest)
    with (pct b ++ rest).
  rewrite prefixb_app_same. reflexivity.
Qed.

Lemma replaceAll_pct_other (x b : N) (rep rest : jsstring) :
  x <> b ->
  replaceAll (pct b) rep (pct x ++ rest) = pct x ++ replaceAll (pct b) rep rest.
Proof.
  intros Hne. unfold replaceAll.
  change (pct x ++ rest)
    with (37 :: hexDigit (x / 16) :: hexDigit (x mod 16) :: rest).
  cbn [replaceAll_from].
  change (37 :: hexDigit (x / 16) :: hexDigit (x mod 16) :: rest)
    with (pct x ++ rest).
  rewrite prefixb_pct_other by exact Hne.
  rewrite !prefixb_pct_literal by apply hexDigit_not_percent.
  reflexivity.
Qed.

Lemma replaceAll_escaped (bytes : list N) (b : N) (rep rest : jsstring) :
  Forall (fun x => x <> b) bytes ->
  replaceAll (pct b) rep (concat (map pct bytes) ++ rest) =
  concat (map pct bytes) ++ replaceAll (pct b) rep rest.
Proof.
  induction 1 as [|x bytes Hx _ IH]; [reflexivity|].
  cbn [map concat]. rewrite <- !app_assoc.
  rewrite replaceAll_pct_other by exact Hx. rewrite IH. reflexivity.
Qed.

Lemma indexOf_literal (b c : N) (rest : jsstring) :
  c <> 37 -> indexOf (pct b) rest = None -> indexOf (pct b) (c :: rest) = None.
Proof.
  intros Hne H. cbn [indexOf].
  rewrite prefixb_pct_literal by exact Hne. rewrite H. reflexivity.
Qed.

Lemma indexOf_pct_other (x b : N) (rest : jsstring) :
  x <> b -> indexOf (pct b) rest = None -> indexOf (pct b) (pct x ++ rest) = None.
Proof.
  intros Hne H.
  change (pct x ++ rest)
    with (37 :: hexDigit (x / 16) :: hexDigit (x mod 16) :: rest).
  cbn [indexOf].
  change (37 :: hexDigit (x / 16) :: hexDigit (x mod 16) :: rest)
    with (pct x ++ rest).
  rewrite prefixb_pct_other by exact Hne.
  rewrite !prefixb_pct_literal by apply hexDigit_not_percent.
  rewrite H. reflexivity.
Qed.

Lemma indexOf_escaped (bytes : list N) (b : N) (rest : jsstring) :
  Forall (fun x => x <> b) bytes ->
  indexOf (pct b) rest = None ->
  indexOf (pct b) (concat (map pct bytes) ++ rest) = None.
Proof.
  induction 1 as [|x bytes Hx _ IH]; intros H; [exact H|].
  cbn [map concat]. rewrite <- !app_assoc.
  apply indexOf_pct_other; [exact Hx | apply IH, H].
Qed.

(** *** Induction along [Encode] *)

Lemma Encode_cases (U : N -> bool) (P : jsstring -> option jsstring -> Prop) :
  P [] (Some []) ->
  (forall c rest r, U c = true -> P rest r ->
     P (c :: rest) (option_map (cons c) r)) ->
  (forall c lo rest r, U c = false -> isHighSurrogate c = true ->
     isLowSurrogate lo = true -> P rest r ->
     P (c :: lo :: rest)
       (option_map (app (escape (65536 + (c - 55296) * 1024 + (lo - 56320)))) r)) ->
  (forall c, U c = false -> isHighSurrogate c = true -> P [c] None) ->
  (forall c lo rest, U c = false -> isHighSurrogate c = true ->
     isLowSurrogate lo = false -> P (c :: lo :: rest) None) ->
  (forall c rest, U c = false -> isHighSurrogate c = false ->
     isLowSurrogate c || negb (isCodeUnit c) = true -> P (c :: rest) None) ->
  (forall c rest r, U c = false -> isHighSurrogate c = false ->
     isLowSurrogate c || negb (isCodeUnit c) = false -> P rest r ->
     P (c :: rest) (option_map (app (escape c)) r)) ->
  forall s, P s (Encode U s).
Proof.
  intros Hnil Hlit Hpair Hlone1 Hlone2 Hbad Hone s.
  assert (H : forall n s, (length s <= n)%nat -> P s (Encode U s)).
  { clear s. induction n as [|n IH]; intros s Hlen.
    - destruct s; [exact Hnil | simpl in Hlen; lia].
    - destruct s as [|c rest]; [exact Hnil|].
      simpl in Hlen. cbn [Encode].
      destruct (U c) eqn:EU; [apply Hlit; [exact EU | apply IH; lia]|].
      destruct (isHighSurrogate c) eqn:EH.
      + destruct rest as [|lo rest']; [apply Hlone1; assumption|].
        destruct (isLowSurrogate lo) eqn:EL.
        * apply Hpair; try assumption. apply IH. simpl in Hlen. lia.
        * apply Hlone2; assumption.
      + destruct (isLowSurrogate c || negb (isCodeUnit c)) eqn:EB.
        * apply Hbad; assumption.
        * apply Hone; try assumption. apply IH. lia. }
  apply (H (length s)). lia.
Qed.

Lemma Encode_unfold_literal (U : N -> bool) (c : N) (rest : jsstring) :
  U c = true -> Encode U (c :: rest) = option_map (cons c) (Encode U rest).
Proof. intros H. cbn [Encode]. rewrite H. reflexivity. Qed.

Lemma option_map_map {A B C : Type} (f : A -> B) (g : B -> C) (o : option A) :
  option_map g (option_map f o) = option_map (fun x => g (f x)) o.
Proof. destruct o; reflexivity. Qed.

Lemma option_map_ext' {A B : Type} (f g : A -> B) (o : option A) :
  (forall x, f x = g x) -> option_map f o = option_map g o.
Proof. intros H. destruct o; simpl; [rewrite H|]; reflexivity. Qed.

(** Decoding [%XY] back to the ASCII character [b] it stands for, over the
    whole encoded text, is encoding with [b] left as it is. *)
Lemma Encode_replaceAll (U : N -> bool) (b : N) (s : jsstring) :
  b < 128 -> b <> 37 -> (forall c, U c = true -> c <> 37) ->
  Encode (fun c => U c || (c =? b)) s =
  option_map (replaceAll (pct b) [b]) (Encode U s).
Proof.
  intros Hb Hb' HU. pattern s, (Encode U s). apply Encode_cases; clear s.
  - reflexivity.
  - intros c rest r Hc IH.
    rewrite Encode_unfold_literal by (rewrite Hc; reflexivity).
    rewrite IH, !option_map_map. apply option_map_ext'. intros x.
    rewrite replaceAll_literal by (apply HU, Hc). reflexivity.
  - intros c lo rest r Hc Hhi Hlo IH.
    unfold isHighSurrogate in Hhi. apply andb_true_iff in Hhi as [Hhi1 Hhi2].
    apply N.leb_le in Hhi1. apply N.ltb_lt in Hhi2.
    cbn [Encode]. rewrite Hc.
    replace (c =? b) with false by (symmetry; apply N.eqb_neq; lia).
    cbn [orb]. unfold isHighSurrogate.
    replace (55296 <=? c) with true by (symmetry; apply N.leb_le; lia).
    replace (c <? 56320) with true by (symmetry; apply N.ltb_lt; lia).
    cbn [andb]. rewrite Hlo, IH, !option_map_map. apply option_map_ext'.
    intros x. unfold escape. rewrite replaceAll_escaped; [reflexivity|].
    apply utf8_other; [exact Hb | lia].
  - intros c Hc Hhi.
    assert (Hcb : c <> b).
    { unfold isHighSurrogate in Hhi. apply andb_true_iff in Hhi as [Hhi1 _].
      apply N.leb_le in Hhi1. lia. }
    cbn [Encode]. rewrite Hc, Hhi.
    replace (c =? b) with false by (symmetry; apply N.eqb_neq; exact Hcb).
    reflexivity.
  - intros c lo rest Hc Hhi Hlo.
    assert (Hcb : c <> b).
    { unfold isHighSurrogate in Hhi. apply andb_true_iff in Hhi as [Hhi1 _].
      apply N.leb_le in Hhi1. lia. }
    cbn [Encode]. rewrite Hc, Hhi, Hlo.
    replace (c =? b) with false by (symmetry; apply N.eqb_neq; exact Hcb).
    reflexivity.
  - intros c rest Hc Hhi Hbad.
    assert (Hcb : c <> b).
    { unfold isLowSurrogate, isCodeUnit in Hbad.
      destruct (N.leb_spec 56320 c); [lia|].
      destruct (N.ltb_spec c 65536); [discriminate | lia]. }
    cbn [Encode]. rewrite Hc, Hhi, Hbad.
    replace (c =? b) with false by (symmetry; apply N.eqb_neq; exact Hcb).
    reflexivity.
  - intros c rest r Hc Hhi Hbad IH.
    destruct (N.eqb_spec c b) as [->|Hcb].
    + rewrite Encode_unfold_literal by (rewrite N.eqb_refl; apply orb_true_r).
      rewrite IH, !option_map_map. apply option_map_ext'. intros x.
      rewrite escape_ascii by exact Hb. rewrite replaceAll_pct_same. reflexivity.
    + cbn [Encode]. rewrite Hc, Hhi, Hbad.
      replace (c =? b) with false by (symmetry; apply N.eqb_neq; exact Hcb).
      cbn [orb]. rewrite IH, !option_map_map. apply option_map_ext'.
      intros x. unfold escape. rewrite replaceAll_escaped; [reflexivity|].
      apply utf8_other; [exact Hb | exact Hcb].
Qed.

(** A character left as it is never shows up percent-encoded. *)
Lemma Encode_no_pct_cases (U : N -> bool) (b : N) (s : jsstring) :
  b < 128 -> U b = true -> (forall c, U c = true -> c <> 37) ->
  match Encode U s with
  | Some e => indexOf (pct b) e = None
  | None => True
  end.
Proof.
  intros Hb Ub HU. pattern s, (Encode U s).
  apply Encode_cases; clear s; try exact (fun _ => I); try (intros; exact I).
  - reflexivity.
  - intros c rest [r|] Hc IH; [|exact I]. cbn [option_map].
    apply indexOf_literal; [apply HU, Hc | exact IH].
  - intros c lo rest [r|] Hc Hhi Hlo IH; [|exact I]. cbn [option_map].
    unfold escape. apply indexOf_escaped; [|exact IH].
    apply utf8_other; [exact Hb | lia].
  - intros c rest [r|] Hc Hhi Hbad IH; [|exact I]. cbn [option_map].
    unfold escape. apply indexOf_escaped; [|exact IH].
    apply utf8_other; [exact Hb | congruence].
Qed.

Lemma Encode_no_pct (U : N -> bool) (b : N) (s e : jsstring) :
  b < 128 -> U b = true -> (forall c, U c = true -> c <> 37) ->
  Encode U s = Some e -> indexOf (pct b) e = None.
Proof.
  intros Hb Ub HU H.
  pose proof (Encode_no_pct_cases U b s Hb Ub HU) as H'.
  rewrite H in H'. exact H'.
Qed.

Lemma uriUnescaped_not_percent (c : N) : uriUnescaped c = true -> c <> 37.
Proof. intros H ->. discriminate H. Qed.

Lemma uriUnescaped_not_bracket (c : N) :
  uriUnescaped c = true -> c <> 91 /\ c <> 93.
Proof. intros H. split; intros ->; discriminate H. Qed.

Lemma keyUnescaped_not_percent (c : N) : keyUnescaped c = true -> c <> 37.
Proof. intros H ->. discriminate H. Qed.

(** The key as the canonicalizer emits it: [encodeURIComponent] followed by
    the two replacements is the encoding that leaves brackets alone. *)
Lemma Encode_key (key : jsstring) :
  Encode keyUnescaped key =
  option_map (fun e => replaceAll (js "%5D") (js "]")
                         (replaceAll (js "%5B") (js "[") e))
             (Encode uriUnescaped key).
Proof.
  unfold keyUnescaped.
  rewrite (Encode_replaceAll (fun c => uriUnescaped c || (c =? 91)) 93);
    [|lia|lia|].
  - rewrite (Encode_replaceAll uriUnescaped 91);
      [|lia|lia|apply uriUnescaped_not_percent].
    rewrite option_map_map. reflexivity.
  - intros c H ->. discriminate H.
Qed.

(** ** The query-string canonicalizer *)

Lemma length_eqb_0 {A : Type} (l : list A) :
  (length l =? 0)%nat = true <-> l = [].
Proof. destruct l; simpl; split; congruence. Qed.

Lemma pairText_nonempty (kv : jsstring * value) (t : jsstring) :
  pairText kv = Some t -> t <> [].
Proof.
  unfold pairText.
  destruct (Encode keyUnescaped (fst kv)) as [k|]; [|discriminate].
  destruct (Encode uriUnescaped (ToString (snd kv))) as [v|]; [|discriminate].
  intros H; injection H as <-. destruct k; discriminate.
Qed.

(** One turn of the emitting loop. *)
Lemma appendPair_spec (query : obj) (acc key : jsstring) :
  appendPair query (Ok acc) key =
  match pairText (key, readProp key query) with
  | Some t => Ok ((if (length acc =? 0)%nat then acc else acc ++ js "&") ++ t)
  | None => Throw URIError
  end.
Proof.
  unfold appendPair, pairText, encodeURIComponent, bind.
  cbn [fst snd ToString]. rewrite Encode_key.
  destruct (Encode uriUnescaped key) as [k|]; cbn [option_map]; [|reflexivity].
  destruct (Encode uriUnescaped (ToString (readProp key query))) as [v|];
    [|reflexivity].
  destruct (length acc =? 0)%nat; cbn [negb];
    rewrite <- ?app_assoc; reflexivity.
Qed.

Lemma appendPair_Throw (query : obj) (e : exn) (key : jsstring) :
  appendPair query (Throw e) key = Throw e.
Proof. reflexivity. Qed.

Lemma fold_appendPair_Throw (query : obj) (e : exn) (ks : list jsstring) :
  fold_left (appendPair query) ks (Throw e) = Throw e.
Proof. induction ks as [|k ks IH]; [reflexivity | exact IH]. Qed.

Lemma fold_appendPair_from (query : obj) (ks : list jsstring) (acc : jsstring) :
  acc <> [] ->
  fold_left (appendPair query) ks (Ok acc) =
  match traverse pairText (map (fun k => (k, readProp k query)) ks) with
  | Some ts => Ok (join (js "&") (acc :: ts))
  | None => Throw URIError
  end.
Proof.
  revert acc; induction ks as [|k ks IH]; intros acc Hacc; [reflexivity|].
  cbn [fold_left map traverse]. rewrite appendPair_spec.
  destruct (pairText (k, readProp k query)) as [t|] eqn:Et;
    [|apply fold_appendPair_Throw].
  destruct (length acc =? 0)%nat eqn:El;
    [apply length_eqb_0 in El; contradiction|].
  rewrite IH by (destruct acc; [contradiction | discriminate]).
  destruct (traverse pairText (map (fun k0 => (k0, readProp k0 query)) ks))
    as [ts|]; [|reflexivity].
  f_equal. cbn [join]. rewrite <- !app_assoc.
  destruct ts; cbn [join]; rewrite <- ?app_assoc; reflexivity.
Qed.

(** The emitting loop joins the texts of the pairs with [&]. *)
Lemma fold_appendPair (query : obj) (ks : list jsstring) :
  fold_left (appendPair query) ks (Ok []) =
  match traverse pairText (map (fun k => (k, readProp k query)) ks) with
  | Some ts => Ok (join (js "&") ts)
  | None => Throw URIError
  end.
Proof.
  destruct ks as [|k ks]; [reflexivity|].
  cbn [fold_left map traverse]. rewrite appendPair_spec.
  destruct (pairText (k, readProp k query)) as [t|] eqn:Et;
    [|apply fold_appendPair_Throw].
  cbn [length Nat.eqb app].
  rewrite fold_appendPair_from by (eapply pairText_nonempty; exact Et).
  destruct (traverse pairText _); reflexivity.
Qed.

Section Canonicalizer.
Context {collab : Collaborators}.

(** What the canonicalizer returns, in one equation. *)
Lemma normalizeQueryString_spec (url : jsstring) (params : obj) :
  normalizeQueryString url params =
  if notFound (indexOf (js "?") url) && (length (keys params) =? 0)%nat
  then Ok url
  else
    match traverse pairText
            (emitted (parseParamsObject params (Url_query url))) with
    | Some ts => Ok (split0 (js "?") url ++ js "?" ++ join (js "&") ts)
    | None => Throw URIError
    end.
Proof.
  unfold normalizeQueryString.
  destruct (notFound (indexOf (js "?") url) && (length (keys params) =? 0)%nat);
    [reflexivity|].
  cbv zeta. rewrite fold_appendPair. unfold emitted.
  destruct (traverse pairText _); reflexivity.
Qed.

Lemma emitted_same_props (q1 q2 : obj) :
  same_props q1 q2 -> emitted q1 = emitted q2.
Proof.
  intros [HP HG]. unfold emitted.
  rewrite (sort_permutation _ _ HP).
  apply map_ext. intros k. unfold readProp. rewrite HG. reflexivity.
Qed.

Lemma emitted_keys (q : obj) : map fst (emitted q) = sort (keys q).
Proof.
  unfold emitted. rewrite map_map. cbn [fst]. apply map_id.
Qed.

End Canonicalizer.

Lemma distinctb_NoDup (ks : list jsstring) : distinctb ks = true -> NoDup ks.
Proof.
  induction ks as [|k ks IH]; cbn [distinctb]; intros H; [constructor|].
  apply andb_true_iff in H as [H1 H2]. constructor; [|apply IH, H2].
  intros Hin. apply hasKey_In in Hin. rewrite Hin in H1. discriminate.
Qed.

Lemma traverse_Forall2 {A B : Type} (f : A -> option B) (l : list A) (ts : list B) :
  traverse f l = Some ts -> Forall2 (fun a t => f a = Some t) l ts.
Proof.
  revert ts; induction l as [|a l IH]; cbn [traverse]; intros ts H.
  - injection H as <-. constructor.
  - destruct (f a) as [b|] eqn:Ea; [|discriminate].
    destruct (traverse f l) as [bs|]; [|discriminate].
    injection H as <-. constructor; [exact Ea | apply IH; reflexivity].
Qed.

Lemma split0_notFound (sep s : jsstring) :
  indexOf sep s = None -> split0 sep s = s.
Proof. unfold split0. intros ->. reflexivity. Qed.

(** ** The canonicalizer: order of the input, order of the output *)



















Section OrderIndependence.
Context {collab : Collaborators}.



End OrderIndependence.



(** ** The canonicalizer: brackets in keys *)

(** C3: in a canonical query string every key is percent-encoded with [[]
    and []] left as they are (the encoded key followed by the two
    replacements is exactly that), so neither [%5B] nor [%5D] occurs in an
    emitted key; a value is the plain [encodeURIComponent] of its text,
    where a bracket stays [%5B] or [%5D]. *)
Theorem canonical_keys_keep_brackets
        {collab : Collaborators} (url : jsstring) (params : obj) (out : jsstring) :
  notFound (indexOf (js "?") url) && (length (keys params) =? 0)%nat = false ->
  normalizeQueryString url params = Ok out ->
  exists texts,
    out = split0 (js "?") url ++ js "?" ++ join (js "&") texts
    /\ Forall2
         (fun kv t =>
            exists e k v,
              Encode uriUnescaped (fst kv) = Some e
              /\ k = replaceAll (js "%5D") (js "]")
                       (replaceAll (js "%5B") (js "[") e)
              /\ Encode keyUnescaped (fst kv) = Some k
              /\ indexOf (js "%5B") k = None
              /\ indexOf (js "%5D") k = None
              /\ encodeURIComponent (snd kv) = Ok v
              /\ t = k ++ js "=" ++ v)
         (emitted (parseParamsObject params (Url_query url))) texts
    /\ keyUnescaped 91 = true /\ keyUnescaped 93 = true
    /\ encodeURIComponent (VStr (js "[]")) = Ok (js "%5B%5D").
Proof.
  intros Hlate Hout. rewrite normalizeQueryString_spec, Hlate in Hout.
  destruct (traverse pairText
              (emitted (parseParamsObject params (Url_query url))))
    as [ts|] eqn:Et; [|discriminate].
  injection Hout as <-. exists ts. split; [reflexivity|].
  split; [|repeat split; reflexivity].
  apply traverse_Forall2 in Et.
  eapply Forall2_impl; [|exact Et].
  intros kv t Ht. unfold pairText in Ht.
  destruct (Encode keyUnescaped (fst kv)) as [k|] eqn:Ek; [|discriminate].
  destruct (Encode uriUnescaped (ToString (snd kv))) as [v|] eqn:Ev;
    [|discriminate].
  injection Ht as <-.
  pose proof (Encode_key (fst kv)) as Hk. rewrite Ek in Hk.
  destruct (Encode uriUnescaped (fst kv)) as [e|] eqn:Ee; [|discriminate].
  cbn [option_map] in Hk. injection Hk as Hk.
  exists e, k, v. repeat split; try assumption; try reflexivity.
  - apply (Encode_no_pct keyUnescaped 91 (fst kv) k);
      [lia | reflexivity | apply keyUnescaped_not_percent | exact Ek].
  - apply (Encode_no_pct keyUnescaped 93 (fst kv) k);
      [lia | reflexivity | apply keyUnescaped_not_percent | exact Ek].
  - unfold encodeURIComponent. rewrite Ev. reflexivity.
Qed.

Lemma canonical_keys_keep_brackets_witness :
  @normalizeQueryString exampleCollaborators Ex.address Ex.bracketed
  = Ok (js "http://x/p?a[b]=%5Bx%5D")
  /\ exists texts,
      js "http://x/p?a[b]=%5Bx%5D"
      = split0 (js "?") Ex.address ++ js "?" ++ join (js "&") texts.
Proof.
  split; [vm_compute; reflexivity|].
  destruct (@canonical_keys_keep_brackets exampleCollaborators
              Ex.address Ex.bracketed (js "http://x/p?a[b]=%5Bx%5D"))
    as [texts [Hout _]].
  - vm_compute. reflexivity.
  - vm_compute. reflexivity.
  - exists texts. exact Hout.
Defined.

(** ** The canonicalizer: nothing to add *)

(** C6, as stated, fails: a mapping that holds only an empty nested object
    flattens to zero entries, yet the canonicalizer appends [?]. *)
Lemma canonicalizer_hollow_params_append_mark :
  indexOf (js "?") Ex.address = None
  /\ flatten Ex.hollow = []
  /\ @normalizeQueryString exampleCollaborators Ex.address Ex.hollow
     = Ok (js "http://x/p?").
Proof. repeat split; vm_compute; reflexivity. Qed.

(** C6 (amended): for every URL without [?] and the empty parameter
    mapping, the canonicalizer returns the URL as it is. *)
Theorem canonicalizer_nothing_to_add
        {collab : Collaborators} (url : jsstring) :
  indexOf (js "?") url = None ->
  normalizeQueryString url [] = Ok url.
Proof.
  intros H. unfold normalizeQueryString. rewrite H. reflexivity.
Qed.

Lemma canonicalizer_nothing_to_add_witness :
  @normalizeQueryString exampleCollaborators Ex.address [] = Ok Ex.address.
Proof.
  apply (@canonicalizer_nothing_to_add exampleCollaborators Ex.address).
  vm_compute. reflexivity.
Defined.

(** ** The parameter flattener: one level *)

Lemma flatten_scalars (params : obj) :
  Forall (fun kv => scalar (snd kv) = true) params ->
  flatten params = filter (fun kv => negb (typeof_object (snd kv))) params.
Proof.
  induction 1 as [|[k v] params H _ IH]; [reflexivity|].
  unfold flatten. cbn [flat_map filter fst snd]. fold (flatten params).
  rewrite IH. destruct v; try discriminate H; reflexivity.
Qed.

Lemma filter_keys_NoDup (f : jsstring * value -> bool) (o : obj) :
  NoDup (keys o) -> NoDup (keys (filter f o)).
Proof.
  induction o as [|kv o IH]; intros HN; [constructor|].
  inversion HN as [|? ? Hnot HN']; subst. cbn [filter].
  destruct (f kv); [|apply IH, HN'].
  cbn [keys map]. constructor; [|apply IH, HN'].
  intros Hin. apply Hnot. unfold keys in *.
  apply in_map_iff in Hin as [x [Hx Hin]]. apply filter_In in Hin as [Hin _].
  apply in_map_iff. exists x. split; assumption.
Qed.

Lemma filter_typeof_flat (f : jsstring * value -> bool) (o : obj) :
  Forall (fun kv => typeof_object (snd kv) = false)
         (filter f (filter (fun kv => negb (typeof_object (snd kv))) o)).
Proof.
  apply Forall_forall. intros kv Hin.
  apply filter_In in Hin as [Hin _]. apply filter_In in Hin as [_ Hk].
  apply negb_true_iff in Hk. exact Hk.
Qed.

Lemma filter_no_proto (o : obj) :
  ~ In (js "__proto__")
      (keys (filter (fun kv => negb (str_eqb (fst kv) (js "__proto__"))) o)).
Proof.
  unfold keys. intros Hin. apply in_map_iff in Hin as [kv [E Hin]].
  apply filter_In in Hin as [_ Hk]. apply negb_true_iff, str_eqb_neq in Hk.
  contradiction.
Qed.

(** C4, as stated, fails: not every value that is not a nested mapping
    passes through under its key.  An entry holding [null] is dropped
    ([typeof null] is ['object'] and [null] has nothing to iterate), and
    so is an entry under the key [__proto__] (the assignment reaches the
    setter of [Object.prototype] and creates no property). *)
Lemma flattener_drops_null_and_proto :
  parseParamsObject Ex.withNull []
  = [(js "a", VNum 1); (js "b", VStr (js "x"))]
  /\ getProp (js "gone") Ex.withNull = Some VNull
  /\ getProp (js "gone") (parseParamsObject Ex.withNull []) = None
  /\ parseParamsObject Ex.withProto [] = [(js "a", VNum 1)]
  /\ getProp (js "__proto__") Ex.withProto = Some (VStr (js "x"))
  /\ getProp (js "__proto__") (parseParamsObject Ex.withProto []) = None.
Proof. repeat split. Qed.

(** C4 (amended): the flattener performs, in order, the assignments
    [query[key[childKey]] = value], one per inner entry of an entry whose
    value is a nested mapping or an array (the child keys of an array
    being its indices), none for an entry holding [null], and
    [query[key] = value] for an entry whose value is not of type
    ['object']; the assigned values are the inner values as they are, so
    an object two levels deep is stored whole.  An assignment sets the
    property, except under the key [__proto__] on an object without such
    a property of its own, where (the value not being of type ['object'])
    it does nothing.  Hence an entry whose value is not of type
    ['object'] and whose key is not [__proto__] is found in the result
    under its key, unless the flattened entries write another value under
    that key; a mapping of such entries, no key twice, yields an object
    with the same properties; and on a mapping of scalars flattening
    twice is flattening once. *)
Theorem flattener_one_level (params query : obj) :
  parseParamsObject params query = assignAll query (flatten params)
  /\ (forall key props rest,
        flatten ((key, VObj props) :: rest) =
        map (itemWrite key) props ++ flatten rest)
  /\ (forall key items rest,
        flatten ((key, VArr items) :: rest) =
        map (itemWrite key) (indexed 0 items) ++ flatten rest)
  /\ (forall key rest, flatten ((key, VNull) :: rest) = flatten rest)
  /\ (forall key v rest,
        typeof_object v = false ->
        flatten ((key, v) :: rest) = (key, v) :: flatten rest)
  /\ (forall k v q,
        k <> js "__proto__" \/ ownProto q = true ->
        assign k v q = setProp k v q)
  /\ (forall v q,
        typeof_object v = false ->
        ownProto q = false ->
        assign (js "__proto__") v q = q)
  /\ parseParamsObject Ex.nested1 [] = [(js "a[b]", VNum 1)]
  /\ parseParamsObject Ex.nested2 [] = [(js "a[b]", VObj [(js "c", VNum 1)])]
  /\ parseParamsObject Ex.withArray []
     = [(js "include[0]", VNum 7); (js "include[1]", VNum 9)]
  /\ (forall k v,
        In (k, v) params ->
        typeof_object v = false ->
        k <> js "__proto__" \/ ownProto query = true ->
        (forall v', In (k, v') (flatten params) -> v' = v) ->
        getProp k (parseParamsObject params query) = Some v)
  /\ (NoDup (keys params) ->
      Forall (fun kv => typeof_object (snd kv) = false) params ->
      ~ In (js "__proto__") (keys params) ->
      same_props (parseParamsObject params []) params)
  /\ (NoDup (keys params) ->
      Forall (fun kv => scalar (snd kv) = true) params ->
      parseParamsObject (parseParamsObject params []) []
      = parseParamsObject params []).
Proof.
  split; [apply parseParamsObject_writes|].
  split; [reflexivity|]. split; [reflexivity|]. split; [reflexivity|].
  split.
  { intros key v rest Hv. unfold flatten. cbn [flat_map fst snd].
    rewrite Hv. reflexivity. }
  split.
  { intros k v q [Hk|Hk]; [apply assign_other | apply assign_own]; exact Hk. }
  split; [intros v q _; apply assign_proto_absent|].
  split; [reflexivity|]. split; [reflexivity|]. split; [reflexivity|].
  split; [|split].
  - intros k v Hin Hv Hk Hsame. rewrite parseParamsObject_writes.
    assert (Hkey : In k (keys (flatten params))).
    { unfold keys. apply in_map_iff. exists (k, v).
      split; [reflexivity | apply flatten_In; assumption]. }
    destruct (getProp_assignAll_written k query (flatten params) Hkey Hk)
      as [v' [Hin' Hget]].
    rewrite Hget, (Hsame v' Hin'). reflexivity.
  - intros HN Hflat Hproto.
    rewrite parseParamsObject_flatten, flatten_flat by exact Hflat.
    rewrite written_all by exact Hproto.
    rewrite spread_nil_flat by exact HN. apply same_props_refl.
  - intros HN Hsc.
    set (kept := filter (fun kv => negb (str_eqb (fst kv) (js "__proto__")))
                   (filter (fun kv => negb (typeof_object (snd kv))) params)).
    assert (HNk : NoDup (keys kept))
      by (apply filter_keys_NoDup, filter_keys_NoDup, HN).
    assert (E : parseParamsObject params [] = kept).
    { rewrite parseParamsObject_flatten, flatten_scalars by exact Hsc.
      apply spread_nil_flat, HNk. }
    rewrite E. rewrite parseParamsObject_flatten.
    rewrite flatten_flat by apply filter_typeof_flat.
    rewrite written_all by apply filter_no_proto.
    apply spread_nil_flat, HNk.
Qed.

Lemma flattener_one_level_witness :
  getProp (js "b") (parseParamsObject Ex.withNull []) = Some (VStr (js "x"))
  /\ same_props (parseParamsObject Ex.ab []) Ex.ab
  /\ parseParamsObject (parseParamsObject Ex.withProto []) []
     = parseParamsObject Ex.withProto [].
Proof.
  split; [|split].
  - destruct (flattener_one_level Ex.withNull [])
      as (_ & _ & _ & _ & _ & _ & _ & _ & _ & _ & H & _).
    apply H.
    + unfold Ex.withNull. right. right. left. reflexivity.
    + reflexivity.
    + left. intros E. discriminate E.
    + intros v' [E|[E|[]]]; [discriminate E | congruence].
  - destruct (flattener_one_level Ex.ab [])
      as (_ & _ & _ & _ & _ & _ & _ & _ & _ & _ & _ & H & _).
    apply H.
    + apply distinctb_NoDup. vm_compute. reflexivity.
    + repeat constructor.
    + intros [E|[E|[]]]; discriminate E.
  - destruct (flattener_one_level Ex.withProto [])
      as (_ & _ & _ & _ & _ & _ & _ & _ & _ & _ & _ & _ & H).
    apply H.
    + apply distinctb_NoDup. vm_compute. reflexivity.
    + repeat constructor.
Defined.

(** ** The URL builder: the slash between base and prefix *)

Lemma slice_last_app (s : jsstring) (c : N) : slice_last (s ++ [c]) = [c].
Proof.
  induction s as [|x s IH]; [reflexivity|].
  cbn [app slice_last]. destruct (s ++ [c]) eqn:E; [|exact IH].
  destruct s; discriminate.
Qed.

Lemma slice_last_removelast (s : jsstring) (c : N) :
  slice_last s = [c] -> removelast s ++ [c] = s.
Proof.
  induction s as [|x s IH]; [discriminate|].
  destruct s as [|y s].
  - cbn. intros H; injection H as ->. reflexivity.
  - intros H. change (x :: removelast (y :: s) ++ [c] = x :: y :: s).
    f_equal. apply IH. exact H.
Qed.

Lemma withoutSlash_slash (base : jsstring) :
  (if str_eqb (slice_last base) (js "/") then base else base ++ js "/")
  = withoutSlash base ++ js "/".
Proof.
  unfold withoutSlash. destruct (str_eqb (slice_last base) (js "/")) eqn:E;
    [|reflexivity].
  apply str_eqb_eq in E. symmetry. apply slice_last_removelast, E.
Qed.

Lemma getUrl_no_port
      {collab : Collaborators} (this : WooCommerceRestApi)
      (endpoint : jsstring) (params : obj) :
  port this = [] ->
  getUrl this endpoint params =
    (let u := withoutSlash (url this) ++ js "/" ++ wpAPIPrefix this ++ js "/"
              ++ version this ++ js "/" ++ endpoint in
     if negb (isHttps this) then normalizeQueryString u params else Ok u).
Proof.
  intros Hport. unfold getUrl. rewrite Hport. cbn [str_eqb negb].
  rewrite withoutSlash_slash. cbv zeta. rewrite <- !app_assoc. reflexivity.
Qed.

(** C5: the assembled URL is the base without its final slash, if it has
    one, followed by [/prefix/version/endpoint]; so a base and the same
    base with a slash appended give the same URL.  With the defaults and no
    port, base [http://shop.test/], endpoint [products] and params
    [{ per_page: 5 }] give [http://shop.test/wp-json/wc/v3/products?per_page=5]
    (the address parser reporting no parameters for an address without
    query string). *)
Theorem getUrl_single_slash
        {collab : Collaborators} (this : WooCommerceRestApi)
        (base endpoint : jsstring) (params : obj) :
  (port this = [] ->
   getUrl this endpoint params =
     (let u := withoutSlash (url this) ++ js "/" ++ wpAPIPrefix this ++ js "/"
               ++ version this ++ js "/" ++ endpoint in
      if negb (isHttps this) then normalizeQueryString u params else Ok u))
  /\ (slice_last base <> js "/" ->
      getUrl (withUrl (base ++ js "/") this) endpoint params
      = getUrl (withUrl base this) endpoint params)
  /\ (Url_query (js "http://shop.test/wp-json/wc/v3/products") = [] ->
      exists shop,
        constructor (Some Ex.shopOptions) = Ok shop
        /\ wpAPIPrefix shop = js "wp-json" /\ version shop = js "wc/v3"
        /\ getUrl shop (js "products") Ex.perPage
           = Ok (js "http://shop.test/wp-json/wc/v3/products?per_page=5")).
Proof.
  split; [|split].
  - intros Hport. apply getUrl_no_port, Hport.
  - intros Hbase. unfold getUrl. cbn [url wpAPIPrefix version port isHttps withUrl].
    change (js "/") with [47]. rewrite slice_last_app. cbn [str_eqb].
    rewrite N.eqb_refl. cbn [andb].
    change [47] with (js "/").
    apply str_eqb_neq in Hbase. rewrite Hbase. reflexivity.
  - intros Hq. exists (setDefaultsOptions (js "1.0.2") Ex.shopOptions).
    split; [reflexivity|]. split; [reflexivity|]. split; [reflexivity|].
    rewrite getUrl_no_port by reflexivity.
    set (shop := setDefaultsOptions (js "1.0.2") Ex.shopOptions).
    assert (Hu : withoutSlash (url shop) ++ js "/" ++ wpAPIPrefix shop ++ js "/"
                 ++ version shop ++ js "/" ++ js "products"
                 = js "http://shop.test/wp-json/wc/v3/products")
      by (vm_compute; reflexivity).
    assert (Hh : isHttps shop = false) by reflexivity.
    cbv zeta. rewrite Hu, Hh. cbn [negb].
    rewrite normalizeQueryString_spec, Hq. vm_compute. reflexivity.
Qed.

Lemma getUrl_single_slash_witness :
  @getUrl exampleCollaborators
    (withUrl (js "http://shop.test" ++ js "/")
             (setDefaultsOptions (js "1.0.2") Ex.shopOptions))
    (js "products") Ex.perPage
  = @getUrl exampleCollaborators
      (withUrl (js "http://shop.test")
               (setDefaultsOptions (js "1.0.2") Ex.shopOptions))
      (js "products") Ex.perPage
  /\ exists shop,
      constructor (Some Ex.shopOptions) = Ok shop
      /\ wpAPIPrefix shop = js "wp-json" /\ version shop = js "wc/v3"
      /\ @getUrl exampleCollaborators shop (js "products") Ex.perPage
         = Ok (js "http://shop.test/wp-json/wc/v3/products?per_page=5").
Proof.
  pose proof (@getUrl_single_slash exampleCollaborators
                (setDefaultsOptions (js "1.0.2") Ex.shopOptions)
                (js "http://shop.test") (js "products") Ex.perPage)
    as [_ [Hsame Hshop]].
  split.
  - apply Hsame. vm_compute. discriminate.
  - apply Hshop. reflexivity.
Defined.

(** ** Construction *)

Section Requests.
Context {collab : Collaborators}.

Lemma normalizeQueryString_error (url : jsstring) (params : obj) (e : exn) :
  normalizeQueryString url params = Throw e -> e = URIError.
Proof.
  rewrite normalizeQueryString_spec.
  destruct (notFound (indexOf (js "?") url) && (length (keys params) =? 0)%nat);
    [discriminate|].
  destruct (traverse pairText _); [discriminate|].
  intros H; injection H as <-; reflexivity.
Qed.

Lemma getUrl_error (this : WooCommerceRestApi) (endpoint : jsstring)
      (params : obj) (e : exn) :
  getUrl this endpoint params = Throw e -> e = URIError.
Proof.
  unfold getUrl. destruct (negb (isHttps this)); [|discriminate].
  apply normalizeQueryString_error.
Qed.

Lemma getUrl_https (this : WooCommerceRestApi) (endpoint : jsstring)
      (params : obj) :
  isHttps this = true -> exists url, getUrl this endpoint params = Ok url.
Proof.
  intros H. unfold getUrl. rewrite H. cbn [negb]. eexists; reflexivity.
Qed.

Lemma request_unfold (this : WooCommerceRestApi) (method endpoint : jsstring)
      (data : value) (params : obj) :
  request this method endpoint data params =
  (url <- getUrl this endpoint params ;;
   Ok (spread (computedOptions this url method data params) (axiosConfig this))).
Proof. reflexivity. Qed.

Lemma Part000_request_unfold (this : WooCommerceRestApi)
      (method endpoint : jsstring) (data : value) (params : option obj) :
  Part000.request this method endpoint data params =
  (url <- getUrl this endpoint (orObj params []) ;;
   Ok (spread (axiosConfig this)
              (computedOptions this url method data (orObj params [])))).
Proof. reflexivity. Qed.

Lemma request_error (this : WooCommerceRestApi) (method endpoint : jsstring)
      (data : value) (params : obj) (e : exn) :
  request this method endpoint data params = Throw e -> e = URIError.
Proof.
  rewrite request_unfold.
  destruct (getUrl this endpoint params) as [url|e'] eqn:E; [discriminate|].
  cbn [bind]. intros H; injection H as <-. eapply getUrl_error, E.
Qed.

Lemma Part000_request_error (this : WooCommerceRestApi)
      (method endpoint : jsstring) (data : value) (params : option obj)
      (e : exn) :
  Part000.request this method endpoint data params = Throw e -> e = URIError.
Proof.
  rewrite Part000_request_unfold.
  destruct (getUrl this endpoint (orObj params [])) as [url|e'] eqn:E;
    [discriminate|].
  cbn [bind]. intros H; injection H as <-. eapply getUrl_error, E.
Qed.

End Requests.

(** C9: the constructor throws the options exception, with the message
    [<name> is required] for the first of [url], [consumerKey],
    [consumerSecret] that is left out or empty, and returns a client when
    none is; a caller that builds a client and then issues a request gets
    that exception and no request is made; no request of a client ever
    throws an options exception. *)
Theorem constructor_requires_options
        {collab : Collaborators} (options : option Opt.t) :
  let o := match options with Some o => o | None => Opt.empty end in
  (missing (Opt.url o) = true ->
   constructor options = Throw (OptionsException (js "url is required")))
  /\ (missing (Opt.url o) = false -> missing (Opt.consumerKey o) = true ->
      constructor options
      = Throw (OptionsException (js "consumerKey is required")))
  /\ (missing (Opt.url o) = false -> missing (Opt.consumerKey o) = false ->
      missing (Opt.consumerSecret o) = true ->
      constructor options
      = Throw (OptionsException (js "consumerSecret is required")))
  /\ (missing (Opt.url o) = false -> missing (Opt.consumerKey o) = false ->
      missing (Opt.consumerSecret o) = false ->
      constructor options = Ok (setDefaultsOptions (js "1.0.2") o))
  /\ (missing (Opt.url o) || missing (Opt.consumerKey o)
      || missing (Opt.consumerSecret o) = true ->
      exists name,
        In (name, true)
           [ (js "url", missing (Opt.url o));
             (js "consumerKey", missing (Opt.consumerKey o));
             (js "consumerSecret", missing (Opt.consumerSecret o)) ]
        /\ constructor options
           = Throw (OptionsException (name ++ js " is required"))
        /\ forall endpoint params,
             newThenGet options endpoint params
             = Throw (OptionsException (name ++ js " is required")))
  /\ (forall this method endpoint data params message,
        constructor options = Ok this ->
        request this method endpoint data params
        <> Throw (OptionsException message)
        /\ Part000.request this method endpoint data (Some params)
           <> Throw (OptionsException message)).
Proof.
  intros o. unfold newThenGet, constructor. fold o.
  destruct (missing (Opt.url o)) eqn:E1;
    [|destruct (missing (Opt.consumerKey o)) eqn:E2;
      [|destruct (missing (Opt.consumerSecret o)) eqn:E3]];
    (repeat split; try discriminate; try reflexivity).
  - intros _. exists (js "url"). split; [left; reflexivity|].
    split; reflexivity.
  - intros _. exists (js "consumerKey").
    split; [right; left; reflexivity|]. split; reflexivity.
  - intros _. exists (js "consumerSecret").
    split; [right; right; left; reflexivity|]. split; reflexivity.
  - intros Hthrow. apply request_error in Hthrow. discriminate.
  - intros Hthrow. apply Part000_request_error in Hthrow. discriminate.
Qed.

Lemma constructor_requires_options_witness :
  constructor (Some Ex.noSecret)
  = Throw (OptionsException (js "consumerSecret is required")).
Proof.
  apply (@constructor_requires_options exampleCollaborators (Some Ex.noSecret));
    reflexivity.
Defined.

(** ** The options computed by a request *)

(** Two string literals differ. *)
Ltac js_neq := let H := fresh in intro H; vm_compute in H; discriminate H.

Section Computed.
Context {collab : Collaborators}.
Variables (this : WooCommerceRestApi) (url method : jsstring)
          (data : value) (params : obj).

Lemma getProp_bodyOptions (k : jsstring) (o : obj) :
  k <> js "headers" -> k <> js "data" ->
  getProp k (bodyOptions data o) = getProp k o.
Proof.
  intros H1 H2. unfold bodyOptions. destruct (truthy data); [|reflexivity].
  cbv zeta. rewrite !getProp_setProp_neq by assumption. reflexivity.
Qed.

Lemma computed_params_https :
  isHttps this = true ->
  getProp (js "params") (computedOptions this url method data params)
  = Some (VObj (spread (if queryStringAuth this then credentialParams this
                        else []) params)).
Proof.
  intros Hs. unfold computedOptions.
  rewrite getProp_bodyOptions by js_neq.
  unfold authOptions. rewrite Hs. cbv zeta.
  rewrite getProp_setProp_eq. unfold readProp.
  destruct (queryStringAuth this).
  - rewrite getProp_setProp_eq. reflexivity.
  - rewrite getProp_setProp_neq by js_neq. reflexivity.
Qed.

Lemma computed_auth_https :
  isHttps this = true ->
  getProp (js "auth") (computedOptions this url method data params)
  = if queryStringAuth this then None else Some (VObj (basicAuth this)).
Proof.
  intros Hs. unfold computedOptions.
  rewrite getProp_bodyOptions by js_neq.
  unfold authOptions. rewrite Hs. cbv zeta.
  rewrite getProp_setProp_neq by js_neq.
  destruct (queryStringAuth this).
  - rewrite getProp_setProp_neq by js_neq. reflexivity.
  - rewrite getProp_setProp_eq. reflexivity.
Qed.

Lemma computed_params_http :
  isHttps this = false ->
  getProp (js "params") (computedOptions this url method data params)
  = Some (VObj (OAuth_authorize (getOAuth this) url method)).
Proof.
  intros Hs. unfold computedOptions.
  rewrite getProp_bodyOptions by js_neq.
  unfold authOptions. rewrite Hs. apply getProp_setProp_eq.
Qed.

Lemma computed_timeout :
  getProp (js "timeout") (computedOptions this url method data params)
  = Some (timeout this).
Proof.
  unfold computedOptions.
  rewrite getProp_bodyOptions by js_neq.
  unfold authOptions.
  destruct (isHttps this); [destruct (queryStringAuth this)|];
    rewrite !getProp_setProp_neq by js_neq; reflexivity.
Qed.

Lemma computed_keys_NoDup :
  NoDup (keys (computedOptions this url method data params)).
Proof.
  apply distinctb_NoDup. unfold computedOptions, bodyOptions, authOptions.
  destruct (truthy data), (isHttps this), (queryStringAuth this);
    vm_compute; reflexivity.
Qed.

(** [src/index.js]: what the transport overrides define is what is
    dispatched; the rest is what the request computed. *)
Lemma dispatched_index (k : jsstring) :
  NoDup (keys (axiosConfig this)) ->
  getProp k (spread (computedOptions this url method data params)
                    (axiosConfig this))
  = match getProp k (axiosConfig this) with
    | Some v => Some v
    | None => getProp k (computedOptions this url method data params)
    end.
Proof. intros HN. apply getProp_spread, HN. Qed.

(** [src/unnamed/part_000]: what the request computed is what is
    dispatched; the overrides only add. *)
Lemma dispatched_part000 (k : jsstring) :
  getProp k (spread (axiosConfig this)
                    (computedOptions this url method data params))
  = match getProp k (computedOptions this url method data params) with
    | Some v => Some v
    | None => getProp k (axiosConfig this)
    end.
Proof. apply getProp_spread, computed_keys_NoDup. Qed.

End Computed.

(** ** The authentication selector *)

(** C2, as stated, fails.  With HTTPS and Basic authentication, a caller
    whose params hold [consumer_key] has it dispatched as a query
    parameter, by either revision; and with HTTPS and query-string
    authentication, a transport override [auth] is dispatched, by either
    revision, so the configuration does carry a Basic-auth object. *)
Lemma selector_claim_fails :
  (exists this this' o o',
      constructor (Some Ex.basicOptions) = Ok this
      /\ Part000.constructor (Some Ex.basicOptions) = Ok this'
      /\ isHttps this = true /\ queryStringAuth this = false
      /\ isHttps this' = true /\ queryStringAuth this' = false
      /\ @request exampleCollaborators this (js "get") (js "products") VNull
           Ex.ownKey = Ok o
      /\ @Part000.request exampleCollaborators this' (js "get") (js "products")
           VNull (Some Ex.ownKey) = Ok o'
      /\ getProp (js "params") o
         = Some (VObj [(js "consumer_key", VStr (js "mine"))])
      /\ getProp (js "params") o'
         = Some (VObj [(js "consumer_key", VStr (js "mine"))]))
  /\ (exists this this' o o',
         constructor (Some (Ex.secureOptions Ex.authOverride)) = Ok this
         /\ Part000.constructor (Some (Ex.secureOptions Ex.authOverride))
            = Ok this'
         /\ isHttps this = true /\ queryStringAuth this = true
         /\ isHttps this' = true /\ queryStringAuth this' = true
         /\ @request exampleCollaborators this (js "get") (js "products")
              VNull [] = Ok o
         /\ @Part000.request exampleCollaborators this' (js "get")
              (js "products") VNull None = Ok o'
         /\ getProp (js "auth") o
            = Some (VObj [(js "username", VStr (js "u"));
                          (js "password", VStr (js "p"))])
         /\ getProp (js "auth") o'
            = Some (VObj [(js "username", VStr (js "u"));
                          (js "password", VStr (js "p"))])).
Proof.
  split.
  - eexists. eexists. eexists. eexists.
    split; [reflexivity|]. split; [reflexivity|].
    split; [reflexivity|]. split; [reflexivity|].
    split; [reflexivity|]. split; [reflexivity|].
    split; [vm_compute; reflexivity|]. split; [vm_compute; reflexivity|].
    split; vm_compute; reflexivity.
  - eexists. eexists. eexists. eexists.
    split; [reflexivity|]. split; [reflexivity|].
    split; [reflexivity|]. split; [reflexivity|].
    split; [reflexivity|]. split; [reflexivity|].
    split; [vm_compute; reflexivity|]. split; [vm_compute; reflexivity|].
    split; vm_compute; reflexivity.
Qed.

(** C2 (amended): a request that gets its URL dispatches, in either
    revision, a configuration that carries the selected authentication:
    both credentials as query parameters and no [auth] object (HTTPS,
    query-string authentication), the Basic-auth object and the caller's
    params as the query parameters (HTTPS otherwise), the signed parameter
    set as the query parameters (no HTTPS) -- in [src/index.js] provided
    that the transport overrides define neither [auth] nor [params], in
    [src/unnamed/part_000] provided that they define no [auth] when
    query-string authentication is selected.  A request whose URL cannot
    be built throws and dispatches nothing. *)
Theorem auth_selection
        {collab : Collaborators} (this : WooCommerceRestApi)
        (method endpoint : jsstring) (data : value) (params : obj) :
  NoDup (keys params) ->
  match getUrl this endpoint params with
  | Throw e =>
      isHttps this = false
      /\ request this method endpoint data params = Throw e
      /\ Part000.request this method endpoint data (Some params) = Throw e
  | Ok url =>
      exists o o',
        request this method endpoint data params = Ok o
        /\ Part000.request this method endpoint data (Some params) = Ok o'
        /\ (NoDup (keys (axiosConfig this)) ->
            getProp (js "auth") (axiosConfig this) = None ->
            getProp (js "params") (axiosConfig this) = None ->
            carriesSelectedAuth this url method params o)
        /\ ((isHttps this = true -> queryStringAuth this = true ->
             getProp (js "auth") (axiosConfig this) = None) ->
            carriesSelectedAuth this url method params o')
  end.
Proof.
  intros HNp.
  rewrite request_unfold, Part000_request_unfold. cbn [orObj].
  destruct (getUrl this endpoint params) as [url|e] eqn:Eurl; cbn [bind].
  2:{ split; [|split; reflexivity].
      destruct (isHttps this) eqn:Es; [|reflexivity].
      destruct (getUrl_https this endpoint params Es) as [u Hu]. congruence. }
  eexists. eexists. split; [reflexivity|]. split; [reflexivity|].
  assert (Hq :
            getProp (js "consumer_key") (spread (credentialParams this) params)
            = Some (match getProp (js "consumer_key") params with
                    | Some v => v
                    | None => VStr (consumerKey this)
                    end)
            /\ getProp (js "consumer_secret")
                 (spread (credentialParams this) params)
               = Some (match getProp (js "consumer_secret") params with
                       | Some v => v
                       | None => VStr (consumerSecret this)
                       end)).
  { split; rewrite getProp_spread by exact HNp;
      destruct (getProp _ params); reflexivity. }
  split.
  - intros HNa Hauth Hparams. unfold carriesSelectedAuth.
    rewrite !dispatched_index by exact HNa. rewrite Hauth, Hparams.
    destruct (isHttps this) eqn:Es.
    + rewrite computed_auth_https, computed_params_https by exact Es.
      destruct (queryStringAuth this).
      * split; [reflexivity|]. eexists. split; [reflexivity | exact Hq].
      * split; [reflexivity|]. eexists. split; [reflexivity|].
        intros k. rewrite getProp_spread by exact HNp.
        destruct (getProp k params); reflexivity.
    + apply computed_params_http, Es.
  - intros Hauth. unfold carriesSelectedAuth.
    rewrite !dispatched_part000.
    destruct (isHttps this) eqn:Es.
    + rewrite computed_auth_https, computed_params_https by exact Es.
      destruct (queryStringAuth this).
      * split; [apply Hauth; reflexivity|].
        eexists. split; [reflexivity | exact Hq].
      * split; [reflexivity|]. eexists. split; [reflexivity|].
        intros k. rewrite getProp_spread by exact HNp.
        destruct (getProp k params); reflexivity.
    + rewrite computed_params_http by exact Es. reflexivity.
Qed.

Lemma auth_selection_witness :
  exists o o',
    @request exampleCollaborators (Ex.secureShop []) (js "get") (js "products")
      VNull Ex.perPage = Ok o
    /\ @Part000.request exampleCollaborators (Ex.secureShop []) (js "get")
         (js "products") VNull (Some Ex.perPage) = Ok o'
    /\ getProp (js "auth") o = None
    /\ getProp (js "auth") o' = None.
Proof.
  assert (HN : NoDup (keys Ex.perPage))
    by (apply distinctb_NoDup; vm_compute; reflexivity).
  pose proof (@auth_selection exampleCollaborators (Ex.secureShop [])
                (js "get") (js "products") VNull Ex.perPage HN) as H.
  assert (E : @getUrl exampleCollaborators (Ex.secureShop []) (js "products")
                Ex.perPage
              = Ok (js "https://shop.test/wp-json/wc/v3/products"))
    by (vm_compute; reflexivity).
  rewrite E in H. destruct H as (o & o' & Ho & Ho' & Hi & Hp).
  exists o, o'. split; [exact Ho|]. split; [exact Ho'|].
  specialize (Hi (NoDup_nil _) eq_refl eq_refl).
  specialize (Hp (fun _ _ => eq_refl)).
  unfold carriesSelectedAuth in Hi, Hp.
  change (isHttps (Ex.secureShop [])) with true in Hi, Hp.
  change (queryStringAuth (Ex.secureShop [])) with true in Hi, Hp.
  cbv iota in Hi, Hp.
  split; [exact (proj1 Hi) | exact (proj1 Hp)].
Defined.

(** ** The caller's params and the credentials *)

(** C10, as stated, fails in [src/index.js]: when the transport overrides
    define [params], the dispatched query parameters are the overrides',
    and the caller's [consumer_key] is not among them. *)
Lemma caller_key_lost_to_override :
  exists this o,
    constructor (Some (Ex.secureOptions Ex.paramsOverride)) = Ok this
    /\ isHttps this = true /\ queryStringAuth this = true
    /\ @request exampleCollaborators this (js "get") (js "products") VNull
         Ex.ownKey = Ok o
    /\ getProp (js "params") o = Some (VObj [(js "page", VNum 1)]).
Proof.
  eexists. eexists.
  split; [reflexivity|]. split; [reflexivity|]. split; [reflexivity|].
  split; vm_compute; reflexivity.
Qed.

(** C10 (amended): for every HTTPS client the computed query parameters
    are the credential parameters (present with query-string
    authentication) with the caller's params spread over them, so a key of
    the caller's params, [consumer_key] and [consumer_secret] included,
    has the caller's value; these are the dispatched query parameters in
    [src/unnamed/part_000], and in [src/index.js] when the transport
    overrides do not define [params]. *)
Theorem caller_params_take_precedence
        {collab : Collaborators} (this : WooCommerceRestApi)
        (method endpoint : jsstring) (data : value) (params : obj) :
  isHttps this = true ->
  NoDup (keys params) ->
  let q := spread (if queryStringAuth this then credentialParams this else [])
                  params in
  exists o o',
    request this method endpoint data params = Ok o
    /\ Part000.request this method endpoint data (Some params) = Ok o'
    /\ (forall k v, getProp k params = Some v -> getProp k q = Some v)
    /\ (forall k, getProp k params = None ->
                  getProp k q
                  = getProp k (if queryStringAuth this
                               then credentialParams this else []))
    /\ getProp (js "params") o' = Some (VObj q)
    /\ (NoDup (keys (axiosConfig this)) ->
        getProp (js "params") (axiosConfig this) = None ->
        getProp (js "params") o = Some (VObj q)).
Proof.
  intros Hs HNp q.
  rewrite request_unfold, Part000_request_unfold. cbn [orObj].
  destruct (getUrl_https this endpoint params Hs) as [url ->]. cbn [bind].
  eexists. eexists. split; [reflexivity|]. split; [reflexivity|].
  split; [|split; [|split]].
  - intros k v Hk. unfold q. rewrite getProp_spread by exact HNp.
    rewrite Hk. reflexivity.
  - intros k Hk. unfold q. rewrite getProp_spread by exact HNp.
    rewrite Hk. reflexivity.
  - rewrite dispatched_part000, computed_params_https by exact Hs.
    reflexivity.
  - intros HNa Hparams. rewrite dispatched_index by exact HNa.
    rewrite Hparams. apply computed_params_https, Hs.
Qed.

Lemma caller_params_take_precedence_witness :
  exists o o',
    @request exampleCollaborators (Ex.secureShop []) (js "get") (js "products")
      VNull Ex.ownKey = Ok o
    /\ @Part000.request exampleCollaborators (Ex.secureShop []) (js "get")
         (js "products") VNull (Some Ex.ownKey) = Ok o'
    /\ getProp (js "params") o
       = Some (VObj [(js "consumer_key", VStr (js "mine"));
                     (js "consumer_secret", VStr (js "cs"))])
    /\ getProp (js "params") o'
       = Some (VObj [(js "consumer_key", VStr (js "mine"));
                     (js "consumer_secret", VStr (js "cs"))]).
Proof.
  assert (HN : NoDup (keys Ex.ownKey))
    by (apply distinctb_NoDup; vm_compute; reflexivity).
  destruct (@caller_params_take_precedence exampleCollaborators
              (Ex.secureShop []) (js "get") (js "products") VNull Ex.ownKey
              eq_refl HN)
    as (o & o' & Ho & Ho' & _ & _ & Hp' & Hp).
  exists o, o'. split; [exact Ho|]. split; [exact Ho'|].
  split; [exact (Hp (NoDup_nil _) eq_refl) | exact Hp'].
Defined.

(** ** The merge with the transport overrides *)

(** X1: in [src/index.js] every key of the transport overrides is
    dispatched with the overrides' value, and every other key with the
    value that the request computed. *)
Theorem index_overrides_take_precedence
        {collab : Collaborators} (this : WooCommerceRestApi)
        (method endpoint : jsstring) (data : value) (params : obj) :
  NoDup (keys (axiosConfig this)) ->
  match getUrl this endpoint params with
  | Throw e => request this method endpoint data params = Throw e
  | Ok url =>
      exists o,
        request this method endpoint data params = Ok o
        /\ (forall k v, getProp k (axiosConfig this) = Some v ->
                        getProp k o = Some v)
        /\ (forall k, getProp k (axiosConfig this) = None ->
                      getProp k o
                      = getProp k (computedOptions this url method data params))
  end.
Proof.
  intros HNa. rewrite request_unfold.
  destruct (getUrl this endpoint params) as [url|e]; cbn [bind];
    [|reflexivity].
  eexists. split; [reflexivity|]. split.
  - intros k v Hk. rewrite dispatched_index by exact HNa. rewrite Hk.
    reflexivity.
  - intros k Hk. rewrite dispatched_index by exact HNa. rewrite Hk.
    reflexivity.
Qed.

Lemma index_overrides_take_precedence_witness :
  exists o,
    @request exampleCollaborators (Ex.secureShop Ex.timeoutOverride)
      (js "get") (js "products") VNull [] = Ok o
    /\ getProp (js "timeout") o = Some (VNum 5000).
Proof.
  assert (HN : NoDup (keys (axiosConfig (Ex.secureShop Ex.timeoutOverride))))
    by (apply distinctb_NoDup; vm_compute; reflexivity).
  pose proof (@index_overrides_take_precedence exampleCollaborators
                (Ex.secureShop Ex.timeoutOverride) (js "get") (js "products")
                VNull [] HN) as H.
  assert (E : @getUrl exampleCollaborators (Ex.secureShop Ex.timeoutOverride)
                (js "products") []
              = Ok (js "https://shop.test/wp-json/wc/v3/products"))
    by (vm_compute; reflexivity).
  rewrite E in H. destruct H as (o & Ho & Hwin & _).
  exists o. split; [exact Ho|]. apply Hwin. reflexivity.
Defined.

(** C7 in [src/unnamed/part_000]: there the computed options are spread
    over the transport overrides, so an override of a computed key is not
    dispatched: with the override [{ timeout: 5000 }] and no [timeout]
    option, the dispatched [timeout] is [undefined]; in general the
    dispatched [timeout] is the client's. *)
Theorem part000_overrides_lose
        {collab : Collaborators} (this : WooCommerceRestApi)
        (method endpoint : jsstring) (data : value) (params : option obj) :
  (exists shop config,
      Part000.constructor (Some (Ex.secureOptions Ex.timeoutOverride)) = Ok shop
      /\ getProp (js "timeout") (axiosConfig shop) = Some (VNum 5000)
      /\ Part000.request shop (js "get") (js "products") VNull None = Ok config
      /\ getProp (js "timeout") config = Some VUndefined)
  /\ match Part000.request this method endpoint data params with
     | Ok config => getProp (js "timeout") config = Some (timeout this)
     | Throw e => e = URIError
     end.
Proof.
  split.
  - set (shop := setDefaultsOptions (js "1.0.4")
                   (Ex.secureOptions Ex.timeoutOverride)).
    destruct (getUrl_https shop (js "products") [] eq_refl) as [u Hu].
    exists shop.
    exists (spread (axiosConfig shop)
                   (computedOptions shop u (js "get") VNull [])).
    split; [reflexivity|]. split; [reflexivity|].
    rewrite Part000_request_unfold. cbn [orObj]. rewrite Hu. cbn [bind].
    split; [reflexivity|].
    rewrite dispatched_part000, computed_timeout. reflexivity.
  - destruct (Part000.request this method endpoint data params)
      as [config|e] eqn:E.
    + rewrite Part000_request_unfold in E.
      destruct (getUrl this endpoint (orObj params [])) as [url|e'];
        [|discriminate].
      cbn [bind] in E. injection E as <-.
      rewrite dispatched_part000, computed_timeout. reflexivity.
    + eapply Part000_request_error, E.
Qed.

(** ** The URL builder: the port *)

(** C8 at the base URL [http://p/] with port [8080]: the host name [p]
    first occurs inside the scheme, and that occurrence is the one
    replaced. *)
Theorem port_spliced_into_scheme {collab : Collaborators} :
  Url_hostname (js "http://p/wp-json/wc/v3/products") = js "p" ->
  exists this,
    constructor (Some Ex.portOptions) = Ok this
    /\ port this = js "8080"
    /\ getUrl this (js "products") []
       = Ok (js "http:8080://p/wp-json/wc/v3/products")
    /\ js "http:8080://p/wp-json/wc/v3/products"
       <> js "http://p:8080/wp-json/wc/v3/products".
Proof.
  intros Hhost. eexists. split; [reflexivity|]. split; [reflexivity|].
  split; [|js_neq].
  unfold getUrl.
  set (this := setDefaultsOptions (js "1.0.2") Ex.portOptions).
  assert (Hu : (if str_eqb (slice_last (url this)) (js "/")
                then url this else url this ++ js "/")
               ++ (wpAPIPrefix this ++ js "/") ++ version this ++ js "/"
               ++ js "products"
               = js "http://p/wp-json/wc/v3/products")
    by (vm_compute; reflexivity).
  cbv zeta. rewrite Hu, Hhost. vm_compute. reflexivity.
Qed.

Lemma port_spliced_into_scheme_witness :
  exists this,
    constructor (Some Ex.portOptions) = Ok this
    /\ port this = js "8080"
    /\ @getUrl exampleCollaborators this (js "products") []
       = Ok (js "http:8080://p/wp-json/wc/v3/products")
    /\ js "http:8080://p/wp-json/wc/v3/products"
       <> js "http://p:8080/wp-json/wc/v3/products".
Proof.
  apply (@port_spliced_into_scheme exampleCollaborators).
  vm_compute. reflexivity.
Defined.

Lemma GetSubstitution_plain (matched before after repl : jsstring) :
  noDollar repl = true -> GetSubstitution matched before after repl = repl.
Proof.
  induction repl as [|c r IH]; [reflexivity|].
  cbn [noDollar forallb]. intros H. apply andb_true_iff in H as [Hc Hr].
  apply negb_true_iff in Hc. cbn [GetSubstitution]. rewrite Hc.
  f_equal. apply IH, Hr.
Qed.

Lemma noDollar_app (a b : jsstring) :
  noDollar (a ++ b) = noDollar a && noDollar b.
Proof. unfold noDollar. apply forallb_app. Qed.

Lemma replace_at (pre pattern post replacement : jsstring) :
  indexOf pattern (pre ++ pattern ++ post) = Some (length pre) ->
  noDollar replacement = true ->
  replace (pre ++ pattern ++ post) pattern replacement
  = pre ++ replacement ++ post.
Proof.
  intros Hi Hd. unfold replace. rewrite Hi. cbv zeta.
  rewrite GetSubstitution_plain by exact Hd.
  rewrite firstn_app, firstn_all, Nat.sub_diag. cbn [firstn].
  rewrite app_nil_r. f_equal. f_equal.
  rewrite <- length_app, app_assoc, skipn_app, skipn_all, Nat.sub_diag.
  reflexivity.
Qed.

(** X2: where the host name that the address parser reports first occurs
    in the assembled URL at the place of the host, and neither it nor the
    port holds a dollar sign, the port is spliced right after it and the
    rest of the URL stays as it is. *)
Theorem port_spliced_after_host
        {collab : Collaborators} (this : WooCommerceRestApi)
        (endpoint : jsstring) (params : obj) (pre post : jsstring) :
  port this <> [] ->
  assembledUrl this endpoint
  = pre ++ Url_hostname (assembledUrl this endpoint) ++ post ->
  indexOf (Url_hostname (assembledUrl this endpoint))
          (assembledUrl this endpoint) = Some (length pre) ->
  noDollar (Url_hostname (assembledUrl this endpoint)) = true ->
  noDollar (port this) = true ->
  getUrl this endpoint params =
  (let u := pre ++ Url_hostname (assembledUrl this endpoint) ++ js ":"
            ++ port this ++ post in
   if negb (isHttps this) then normalizeQueryString u params else Ok u).
Proof.
  intros Hport Hsplit Hfirst Hdh Hdp.
  assert (Hasm : (if str_eqb (slice_last (url this)) (js "/")
                  then url this else url this ++ js "/")
                 ++ (wpAPIPrefix this ++ js "/") ++ version this ++ js "/"
                 ++ endpoint
                 = assembledUrl this endpoint).
  { unfold assembledUrl. rewrite withoutSlash_slash, <- !app_assoc.
    reflexivity. }
  unfold getUrl. cbv zeta. rewrite Hasm.
  apply str_eqb_neq in Hport. rewrite Hport. cbn [negb].
  set (host := Url_hostname (assembledUrl this endpoint)) in *.
  assert (Hrep : replace (assembledUrl this endpoint) host
                   (host ++ js ":" ++ port this)
                 = pre ++ host ++ js ":" ++ port this ++ post).
  { rewrite Hsplit at 1. rewrite replace_at.
    - rewrite <- !app_assoc. reflexivity.
    - rewrite <- Hsplit. exact Hfirst.
    - rewrite !noDollar_app, Hdh, Hdp. reflexivity. }
  rewrite Hrep. reflexivity.
Qed.

Lemma port_spliced_after_host_witness :
  @getUrl exampleCollaborators
    (setDefaultsOptions (js "1.0.2") Ex.shopPortOptions) (js "products") []
  = Ok (js "http://shop.test:8080/wp-json/wc/v3/products").
Proof.
  rewrite (@port_spliced_after_host exampleCollaborators
             (setDefaultsOptions (js "1.0.2") Ex.shopPortOptions)
             (js "products") [] (js "http://") (js "/wp-json/wc/v3/products")).
  - vm_compute. reflexivity.
  - vm_compute. discriminate.
  - vm_compute. reflexivity.
  - vm_compute. reflexivity.
  - vm_compute. reflexivity.
  - vm_compute. reflexivity.
Defined.

(* ================================================================== *)
(** * Part III: further properties of the code *)
(* ================================================================== *)

(** ** The flattener merges into the query object *)

Lemma parseParamsObject_app (p1 p2 query : obj) :
  parseParamsObject (p1 ++ p2) query
  = parseParamsObject p2 (parseParamsObject p1 query).
Proof. unfold parseParamsObject. apply fold_left_app. Qed.

(** X3: [#parseParamsObject] merges into the query object it is given: a
    key that the flattened parameters do not write keeps the value it had
    (or stays absent); a key they write ends with the value of the last
    write, unless the key is [__proto__] and the query object has no such
    property of its own, in which case it still has none afterwards; and
    flattening two mappings one after the other is flattening their
    concatenation. *)
Theorem flattener_merges_into_query (params query : obj) (k : jsstring) :
  (~ In k (keys (flatten params)) ->
   getProp k (parseParamsObject params query) = getProp k query)
  /\ (forall before v after,
        flatten params = before ++ (k, v) :: after ->
        ~ In k (keys after) ->
        k <> js "__proto__" \/ ownProto query = true ->
        getProp k (parseParamsObject params query) = Some v)
  /\ (ownProto query = false ->
      getProp (js "__proto__") (parseParamsObject params query) = None)
  /\ (forall more,
        parseParamsObject (params ++ more) query
        = parseParamsObject more (parseParamsObject params query)).
Proof.
  split; [|split; [|split]].
  - intros Hn. rewrite parseParamsObject_writes.
    apply getProp_assignAll_absent, Hn.
  - intros before v after Hf Hn Hk. rewrite parseParamsObject_writes, Hf.
    apply getProp_assignAll_last; assumption.
  - intros Ho. rewrite parseParamsObject_writes.
    pose proof (ownProto_assignAll query (flatten params)) as H.
    rewrite Ho in H. unfold ownProto in H.
    destruct (getProp (js "__proto__") (assignAll query (flatten params)));
      [discriminate H | reflexivity].
  - intros more. apply parseParamsObject_app.
Qed.

Lemma flattener_merges_into_query_witness :
  getProp (js "page") (parseParamsObject Ex.clash1 [(js "page", VNum 3)])
  = Some (VNum 3)
  /\ getProp (js "a[b]") (parseParamsObject Ex.clash1 [(js "a[b]", VNum 0)])
     = Some (VNum 2)
  /\ getProp (js "__proto__") (parseParamsObject Ex.withProto []) = None.
Proof.
  split; [|split].
  - apply (flattener_merges_into_query Ex.clash1 [(js "page", VNum 3)]
             (js "page")).
    vm_compute. intros [H|[H|[]]]; discriminate H.
  - apply (proj1 (proj2 (flattener_merges_into_query Ex.clash1
                           [(js "a[b]", VNum 0)] (js "a[b]")))
             [(js "a[b]", VNum 1)] (VNum 2) []).
    + reflexivity.
    + intros [].
    + left. intros H. discriminate H.
  - apply (flattener_merges_into_query Ex.withProto [] (js "__proto__")).
    reflexivity.
Defined.

(** ** No key twice *)

Lemma setProp_keys_NoDup (k : jsstring) (v : value) (o : obj) :
  NoDup (keys o) -> NoDup (keys (setProp k v o)).
Proof.
  intros HN. rewrite keys_setProp.
  destruct (hasKey k (keys o)) eqn:E; [exact HN|].
  apply NoDup_app; [exact HN | repeat constructor; intros [] |].
  intros x Hx [<-|[]]. apply hasKey_In in Hx. congruence.
Qed.

Lemma setProp_keys_In (k k0 : jsstring) (v : value) (o : obj) :
  In k (keys (setProp k0 v o)) <-> In k (keys o) \/ k = k0.
Proof.
  rewrite keys_setProp. destruct (hasKey k0 (keys o)) eqn:E.
  - apply hasKey_In in E. split; [auto|]. intros [H | ->]; assumption.
  - rewrite in_app_iff. cbn [In]. split.
    + intros [H|[H|[]]]; auto.
    + intros [H|H]; auto.
Qed.

Lemma spread_keys_NoDup (a b : obj) :
  NoDup (keys a) -> NoDup (keys (spread a b)).
Proof.
  revert a; induction b as [|kv b IH]; intros a HN; [exact HN|].
  rewrite spread_cons. apply IH, setProp_keys_NoDup, HN.
Qed.

Lemma spread_keys_In (k : jsstring) (a b : obj) :
  In k (keys (spread a b)) <-> In k (keys a) \/ In k (keys b).
Proof.
  revert a; induction b as [|[k' v'] b IH]; intros a.
  - cbn. tauto.
  - rewrite spread_cons, IH, setProp_keys_In. cbn [fst snd keys map In].
    split; [intros [[H|H]|H] | intros [H|[H|H]]]; auto.
Qed.

Section Unique.
Context {collab : Collaborators}.

(** X4: the merged query object has no key twice when the one parsed from
    the URL has none; its keys are those of the URL together with the
    flattened ones, the key [__proto__] among the latter only when the
    URL's object has it as a property of its own; so the canonicalizer
    emits each of these keys once, with the value the merged object holds
    for it. *)
Theorem canonical_pairs_unique (url : jsstring) (params : obj) :
  NoDup (keys (Url_query url)) ->
  let query := parseParamsObject params (Url_query url) in
  NoDup (keys query)
  /\ NoDup (map fst (emitted query))
  /\ (forall k, In k (map fst (emitted query))
                <-> In k (keys (Url_query url))
                    \/ (In k (keys (flatten params))
                        /\ (k <> js "__proto__"
                            \/ ownProto (Url_query url) = true)))
  /\ (forall k v, In (k, v) (emitted query) -> getProp k query = Some v).
Proof.
  intros HN query.
  assert (HNq : NoDup (keys query)).
  { unfold query. rewrite parseParamsObject_flatten.
    apply spread_keys_NoDup, HN. }
  split; [exact HNq|]. split; [|split].
  - rewrite emitted_keys. eapply Permutation_NoDup; [apply sort_perm|exact HNq].
  - intros k. rewrite emitted_keys. rewrite <- written_keys_In. split.
    + intros H. eapply Permutation_in in H; [|symmetry; apply sort_perm].
      unfold query in H. rewrite parseParamsObject_flatten in H.
      apply spread_keys_In, H.
    + intros H. eapply Permutation_in; [apply sort_perm|].
      unfold query. rewrite parseParamsObject_flatten.
      apply spread_keys_In, H.
  - intros k v Hin. unfold emitted in Hin.
    apply in_map_iff in Hin as [k' [Heq Hin]]. injection Heq as -> <-.
    eapply Permutation_in in Hin; [|symmetry; apply sort_perm].
    unfold readProp. destruct (getProp k query) eqn:E; [reflexivity|].
    apply getProp_None in E. contradiction.
Qed.

End Unique.

Lemma canonical_pairs_unique_witness :
  NoDup (map fst (emitted (parseParamsObject Ex.clash1
                             (@Url_query exampleCollaborators Ex.address))))
  /\ ~ In (js "__proto__")
         (map fst (emitted (parseParamsObject Ex.withProto
                              (@Url_query exampleCollaborators Ex.address)))).
Proof.
  split.
  - apply (@canonical_pairs_unique exampleCollaborators Ex.address Ex.clash1).
    constructor.
  - intros H.
    apply (@canonical_pairs_unique exampleCollaborators Ex.address
             Ex.withProto) in H; [|constructor].
    destruct H as [[]|[_ [H|H]]]; [apply H; reflexivity | discriminate H].
Defined.

(** ** What a canonical query string is made of *)

Lemma hexDigit_unescaped (d : N) : d < 16 -> uriUnescaped (hexDigit d) = true.
Proof.
  intros H. unfold hexDigit.
  destruct (N.ltb_spec d 10) as [Hd|Hd].
  - assert (E : (48 <=? 48 + d) && (48 + d <=? 57) = true).
    { apply andb_true_iff. split; apply N.leb_le; lia. }
    unfold uriUnescaped. rewrite E. rewrite !orb_true_r. reflexivity.
  - assert (E : (65 <=? 55 + d) && (55 + d <=? 90) = true).
    { apply andb_true_iff. split; apply N.leb_le; lia. }
    unfold uriUnescaped. rewrite E. reflexivity.
Qed.

Lemma keyUnescaped_of_uri (c : N) : uriUnescaped c = true -> keyUnescaped c = true.
Proof. intros H. unfold keyUnescaped. rewrite H. reflexivity. Qed.

Lemma pct_chars (b : N) :
  b < 256 -> Forall (fun c => keyUnescaped c || (c =? 37) = true) (pct b).
Proof.
  intros Hb. unfold pct. repeat apply Forall_cons; try apply Forall_nil.
  - reflexivity.
  - rewrite keyUnescaped_of_uri; [reflexivity|]. apply hexDigit_unescaped.
    apply N.Div0.div_lt_upper_bound. exact Hb.
  - rewrite keyUnescaped_of_uri; [reflexivity|]. apply hexDigit_unescaped.
    apply N.mod_lt. discriminate.
Qed.

Lemma utf8_octets (cp : N) : cp < 1114112 -> Forall (fun b => b < 256) (utf8 cp).
Proof.
  intros H. unfold utf8.
  destruct (N.ltb_spec cp 128); [|destruct (N.ltb_spec cp 2048);
                                   [|destruct (N.ltb_spec cp 65536)]];
    repeat apply Forall_cons; try apply Forall_nil;
    try match goal with
        | |- _ + _ mod 64 < 256 =>
            let Hm := fresh in
            pose proof (N.mod_lt (cp) 64) as Hm;
            pose proof (N.mod_lt (cp / 64) 64);
            pose proof (N.mod_lt (cp / 4096) 64);
            forget_divmod; lia
        end;
    try lia.
  - assert (cp / 64 < 32) by (apply N.Div0.div_lt_upper_bound; lia). lia.
  - assert (cp / 4096 < 16) by (apply N.Div0.div_lt_upper_bound; lia). lia.
  - assert (cp / 262144 < 5) by (apply N.Div0.div_lt_upper_bound; lia). lia.
Qed.

Lemma escape_chars (cp : N) :
  cp < 1114112 ->
  Forall (fun c => keyUnescaped c || (c =? 37) = true) (escape cp).
Proof.
  intros H. unfold escape. apply utf8_octets in H.
  induction H as [|b bs Hb _ IH]; [constructor|].
  cbn [map concat]. apply Forall_app. split; [apply pct_chars, Hb | exact IH].
Qed.

Lemma Encode_chars_cases (U : N -> bool) (s : jsstring) :
  (forall c, U c = true -> keyUnescaped c = true) ->
  match Encode U s with
  | Some e => Forall (fun c => keyUnescaped c || (c =? 37) = true) e
  | None => True
  end.
Proof.
  intros HU. pattern s, (Encode U s).
  apply Encode_cases; clear s; try (intros; exact I).
  - constructor.
  - intros c rest [r|] Hc IH; [|exact I]. cbn [option_map].
    constructor; [rewrite (HU c Hc); reflexivity | exact IH].
  - intros c lo rest [r|] Hc Hhi Hlo IH; [|exact I]. cbn [option_map].
    apply Forall_app. split; [|exact IH]. apply escape_chars.
    unfold isHighSurrogate in Hhi. unfold isLowSurrogate in Hlo.
    apply andb_true_iff in Hhi as [_ Hhi]. apply andb_true_iff in Hlo as [_ Hlo].
    apply N.ltb_lt in Hhi, Hlo. lia.
  - intros c rest [r|] Hc Hhi Hbad IH; [|exact I]. cbn [option_map].
    apply Forall_app. split; [|exact IH]. apply escape_chars.
    apply orb_false_iff in Hbad as [_ Hcu]. apply negb_false_iff in Hcu.
    unfold isCodeUnit in Hcu. apply N.ltb_lt in Hcu. lia.
Qed.

Lemma Encode_chars (U : N -> bool) (s e : jsstring) :
  (forall c, U c = true -> keyUnescaped c = true) ->
  Encode U s = Some e ->
  Forall (fun c => keyUnescaped c || (c =? 37) = true) e.
Proof.
  intros HU H. pose proof (Encode_chars_cases U s HU) as H'.
  rewrite H in H'. exact H'.
Qed.

Lemma count_app (c : N) (a b : jsstring) : count c (a ++ b) = (count c a + count c b)%nat.
Proof. unfold count. apply count_occ_app. Qed.

Lemma count_absent (c : N) (s : jsstring) :
  Forall (fun x => x <> c) s -> count c s = 0%nat.
Proof.
  intros H. unfold count. apply count_occ_not_In.
  intros Hin. rewrite Forall_forall in H. exact (H c Hin eq_refl).
Qed.

Lemma encoded_no_separator (c : N) (e : jsstring) :
  keyUnescaped c || (c =? 37) = false ->
  Forall (fun x => keyUnescaped x || (x =? 37) = true) e ->
  count c e = 0%nat.
Proof.
  intros Hc He. apply count_absent. eapply Forall_impl; [|exact He].
  intros x Hx ->. congruence.
Qed.

Lemma pairText_shape (kv : jsstring * value) (t : jsstring) :
  pairText kv = Some t ->
  count 61 t = 1%nat /\ count 38 t = 0%nat /\ count 63 t = 0%nat
  /\ Forall (fun c => queryChar c = true) t.
Proof.
  unfold pairText.
  destruct (Encode keyUnescaped (fst kv)) as [k|] eqn:Ek; [|discriminate].
  destruct (Encode uriUnescaped (ToString (snd kv))) as [v|] eqn:Ev;
    [|discriminate].
  intros H. assert (Et : t = k ++ js "=" ++ v) by congruence.
  clear H. subst t.
  apply Encode_chars in Ek; [|auto].
  apply Encode_chars in Ev; [|apply keyUnescaped_of_uri].
  rewrite !count_app.
  rewrite (encoded_no_separator 61 k), (encoded_no_separator 61 v),
    (encoded_no_separator 38 k), (encoded_no_separator 38 v),
    (encoded_no_separator 63 k), (encoded_no_separator 63 v)
    by (assumption || reflexivity).
  repeat split; try reflexivity.
  apply Forall_app. split; [|apply Forall_app; split].
  - eapply Forall_impl; [|exact Ek]. intros c Hc. unfold queryChar.
    rewrite Hc. reflexivity.
  - repeat constructor.
  - eapply Forall_impl; [|exact Ev]. intros c Hc. unfold queryChar.
    rewrite Hc. reflexivity.
Qed.

Lemma join_shape (ts : list jsstring) :
  Forall (fun t => count 61 t = 1%nat /\ count 38 t = 0%nat
                   /\ count 63 t = 0%nat
                   /\ Forall (fun c => queryChar c = true) t) ts ->
  count 61 (join (js "&") ts) = length ts
  /\ count 38 (join (js "&") ts) = pred (length ts)
  /\ count 63 (join (js "&") ts) = 0%nat
  /\ Forall (fun c => queryChar c = true) (join (js "&") ts).
Proof.
  induction 1 as [|t ts (H61 & H38 & H63 & Hq) Hts (I61 & I38 & I63 & Iq)].
  - repeat split; constructor.
  - destruct ts as [|t' ts'].
    + cbn [join length pred]. repeat split; assumption.
    + change (join (js "&") (t :: t' :: ts'))
        with (t ++ js "&" ++ join (js "&") (t' :: ts')).
      rewrite !count_app, H61, H38, H63, I61, I38, I63.
      cbn [length pred]. repeat split; try reflexivity.
      apply Forall_app. split; [exact Hq|].
      apply Forall_app. split; [repeat constructor | exact Iq].
Qed.

Lemma count_split0 (c : N) (s : jsstring) : count c (split0 [c] s) = 0%nat.
Proof.
  unfold split0. induction s as [|x s IH].
  - reflexivity.
  - cbn [indexOf prefixb]. destruct (N.eqb_spec c x) as [->|Hne]; cbn [andb].
    + reflexivity.
    + destruct (indexOf [c] s) as [i|]; cbn [option_map firstn].
      * unfold count in *. cbn [count_occ].
        destruct (N.eq_dec x c); [congruence | exact IH].
      * unfold count in *. cbn [count_occ].
        destruct (N.eq_dec x c); [congruence | exact IH].
Qed.

Lemma traverse_length {A B : Type} (f : A -> option B) (l : list A) (ts : list B) :
  traverse f l = Some ts -> length ts = length l.
Proof.
  intros H. apply traverse_Forall2 in H. symmetry.
  eapply Forall2_length, H.
Qed.

Lemma traverse_Forall {A B : Type} (f : A -> option B) (P : B -> Prop)
      (l : list A) (ts : list B) :
  (forall a t, f a = Some t -> P t) ->
  traverse f l = Some ts -> Forall P ts.
Proof.
  intros Hf H. apply traverse_Forall2 in H.
  induction H as [|a t l ts Hat _ IH]; constructor; eauto.
Qed.

(** X5: a canonical URL has exactly one [?]; its query string holds one
    [=] per pair and one [&] between two pairs, whatever the keys and
    values contain, and apart from these only characters that
    percent-encoding leaves or produces. *)
Theorem canonical_separators
        {collab : Collaborators} (url : jsstring) (params : obj) (out : jsstring) :
  notFound (indexOf (js "?") url) && (length (keys params) =? 0)%nat = false ->
  normalizeQueryString url params = Ok out ->
  let pairs := emitted (parseParamsObject params (Url_query url)) in
  exists qs,
    out = split0 (js "?") url ++ js "?" ++ qs
    /\ count 63 out = 1%nat
    /\ count 61 qs = length pairs
    /\ count 38 qs = pred (length pairs)
    /\ Forall (fun c => queryChar c = true) qs.
Proof.
  intros Hlate Hout pairs. rewrite normalizeQueryString_spec, Hlate in Hout.
  fold pairs in Hout.
  destruct (traverse pairText pairs) as [ts|] eqn:Et; [|discriminate].
  assert (Eo : out = split0 (js "?") url ++ js "?" ++ join (js "&") ts)
    by congruence.
  clear Hout. subst out. exists (join (js "&") ts).
  pose proof (traverse_length _ _ _ Et) as Hlen.
  pose proof (traverse_Forall _ _ _ _ pairText_shape Et) as Hts.
  apply join_shape in Hts. destruct Hts as (H61 & H38 & H63 & Hq).
  split; [reflexivity|]. rewrite <- Hlen.
  split; [|repeat split; assumption].
  rewrite !count_app, H63.
  change (js "?") with [63]. rewrite count_split0. reflexivity.
Qed.

Lemma canonical_separators_witness :
  exists qs,
    js "http://x/p?a[b]=%5Bx%5D"
    = split0 (js "?") Ex.address ++ js "?" ++ qs
    /\ count 63 (js "http://x/p?a[b]=%5Bx%5D") = 1%nat.
Proof.
  destruct (@canonical_separators exampleCollaborators Ex.address
              Ex.bracketed (js "http://x/p?a[b]=%5Bx%5D"))
    as (qs & Hout & Hone & _).
  - vm_compute. reflexivity.
  - vm_compute. reflexivity.
  - exists qs. split; [exact Hout | exact Hone].
Defined.

(** ** When the canonicalizer throws *)







Section Throws.
Context {collab : Collaborators}.


Lemma getUrl_builtUrl (this : WooCommerceRestApi) (endpoint : jsstring)
      (params : obj) :
  getUrl this endpoint params
  = if negb (isHttps this)
    then normalizeQueryString (builtUrl this endpoint) params
    else Ok (builtUrl this endpoint).
Proof. reflexivity. Qed.

(** The keys of the object literal that the later steps leave alone. *)
Lemma computed_base (this : WooCommerceRestApi) (url method : jsstring)
      (data : value) (params : obj) (k : jsstring) :
  k <> js "headers" -> k <> js "data" -> k <> js "params" -> k <> js "auth" ->
  getProp k (computedOptions this url method data params)
  = getProp k (baseOptions this url method).
Proof.
  intros Hh Hd Hp Ha. unfold computedOptions.
  rewrite getProp_bodyOptions by assumption.
  unfold authOptions.
  destruct (isHttps this); [destruct (queryStringAuth this)|];
    rewrite !getProp_setProp_neq by assumption; reflexivity.
Qed.

(** X7: a request throws exactly when the client is not HTTPS and the
    canonicalizer throws on the built URL and the caller's params, in
    either revision; an HTTPS request always dispatches, whatever the
    params hold, and its [url] is the built URL, which the params do not
    enter. *)
Theorem request_throws_iff (this : WooCommerceRestApi)
        (method endpoint : jsstring) (data : value) (params : obj) (e : exn) :
  (request this method endpoint data params = Throw e
   <-> isHttps this = false
       /\ normalizeQueryString (builtUrl this endpoint) params = Throw e)
  /\ (Part000.request this method endpoint data (Some params) = Throw e
      <-> isHttps this = false
          /\ normalizeQueryString (builtUrl this endpoint) params = Throw e)
  /\ (isHttps this = true ->
      getUrl this endpoint params = Ok (builtUrl this endpoint)
      /\ exists o o',
          request this method endpoint data params = Ok o
          /\ Part000.request this method endpoint data (Some params) = Ok o'
          /\ getProp (js "url") o' = Some (VStr (builtUrl this endpoint))).
Proof.
  rewrite request_unfold, Part000_request_unfold. cbn [orObj].
  rewrite getUrl_builtUrl.
  destruct (isHttps this); cbn [negb bind].
  - split; [|split].
    + split; [discriminate | intros [H _]; discriminate H].
    + split; [discriminate | intros [H _]; discriminate H].
    + intros _. split; [reflexivity|]. eexists. eexists.
      split; [reflexivity|]. split; [reflexivity|].
      rewrite dispatched_part000, computed_base by js_neq. reflexivity.
  - split; [|split]; [| |discriminate];
      destruct (normalizeQueryString (builtUrl this endpoint) params);
      cbn [bind]; (split; [intros H; split; [reflexivity|];
                           try discriminate H; congruence
                          | intros [_ H]; try discriminate H; congruence]).
Qed.

End Throws.

Lemma request_throws_iff_witness :
  @getUrl exampleCollaborators (Ex.secureShop []) (js "products")
     Ex.loneSurrogate
  = Ok (@builtUrl exampleCollaborators (Ex.secureShop []) (js "products"))
  /\ @request exampleCollaborators Ex.shop (js "get") (js "products") VNull
       Ex.loneSurrogate = Throw URIError.
Proof.
  split.
  - apply (@request_throws_iff exampleCollaborators (Ex.secureShop [])
             (js "get") (js "products") VNull Ex.loneSurrogate URIError).
    reflexivity.
  - apply (@request_throws_iff exampleCollaborators Ex.shop
             (js "get") (js "products") VNull Ex.loneSurrogate URIError).
    split; vm_compute; reflexivity.
Defined.

(** ** What a request dispatches *)

Section Dispatch.
Context {collab : Collaborators}.
Variables (this : WooCommerceRestApi) (url method : jsstring)
          (data : value) (params : obj).

Lemma getProp_authOptions (k : jsstring) (o : obj) :
  k <> js "params" -> k <> js "auth" ->
  getProp k (authOptions this url method params o) = getProp k o.
Proof.
  intros Hp Ha. unfold authOptions.
  destruct (isHttps this); [destruct (queryStringAuth this)|];
    rewrite !getProp_setProp_neq by assumption; reflexivity.
Qed.

Lemma computed_headers :
  getProp (js "headers") (computedOptions this url method data params)
  = Some (VObj (headersFor this data)).
Proof.
  unfold computedOptions, bodyOptions, headersFor.
  destruct (truthy data).
  - cbv zeta. rewrite getProp_setProp_neq by js_neq.
    rewrite getProp_setProp_eq. unfold readProp.
    rewrite getProp_authOptions by js_neq. reflexivity.
  - rewrite getProp_authOptions by js_neq. reflexivity.
Qed.

Lemma computed_data :
  getProp (js "data") (computedOptions this url method data params)
  = bodyFor data.
Proof.
  unfold computedOptions, bodyOptions, bodyFor.
  destruct (truthy data).
  - cbv zeta. apply getProp_setProp_eq.
  - rewrite getProp_authOptions by js_neq. reflexivity.
Qed.

Lemma computed_auth_http :
  isHttps this = false ->
  getProp (js "auth") (computedOptions this url method data params) = None.
Proof.
  intros Hs. unfold computedOptions.
  rewrite getProp_bodyOptions by js_neq.
  unfold authOptions. rewrite Hs.
  rewrite getProp_setProp_neq by js_neq. reflexivity.
Qed.

End Dispatch.

Section Dispatched.
Context {collab : Collaborators}.

(** X8: without HTTPS, what is signed is what is sent: the dispatched
    [url] is the canonical URL (the built URL with the caller's params
    folded in), the dispatched [method] is the request's, and the
    dispatched query parameters are the answer of the signer for the
    client's consumer key and secret, HMAC-SHA256, that URL and that
    method; no [auth] is computed.  So it is in [src/unnamed/part_000];
    and in [src/index.js] for the keys that the transport overrides do
    not define. *)
Theorem signed_request_is_dispatched
        (this : WooCommerceRestApi) (method endpoint : jsstring)
        (data : value) (params : obj) (url : jsstring) :
  isHttps this = false ->
  normalizeQueryString (builtUrl this endpoint) params = Ok url ->
  let signed :=
    OAuth_authorize
      {| consumer_key := consumerKey this;
         consumer_secret := consumerSecret this;
         signature_method := js "HMAC-SHA256" |} url method in
  exists o o',
    request this method endpoint data params = Ok o
    /\ Part000.request this method endpoint data (Some params) = Ok o'
    /\ getProp (js "url") o' = Some (VStr url)
    /\ getProp (js "method") o' = Some (VStr method)
    /\ getProp (js "params") o' = Some (VObj signed)
    /\ getProp (js "auth") o' = getProp (js "auth") (axiosConfig this)
    /\ (NoDup (keys (axiosConfig this)) ->
        (getProp (js "url") (axiosConfig this) = None ->
         getProp (js "url") o = Some (VStr url))
        /\ (getProp (js "method") (axiosConfig this) = None ->
            getProp (js "method") o = Some (VStr method))
        /\ (getProp (js "params") (axiosConfig this) = None ->
            getProp (js "params") o = Some (VObj signed))).
Proof.
  intros Hs Hurl signed.
  rewrite request_unfold, Part000_request_unfold. cbn [orObj].
  rewrite getUrl_builtUrl, Hs. cbn [negb]. rewrite Hurl. cbn [bind].
  eexists. eexists. split; [reflexivity|]. split; [reflexivity|].
  rewrite !dispatched_part000.
  rewrite !computed_base by js_neq.
  rewrite computed_params_http, computed_auth_http by exact Hs.
  split; [reflexivity|]. split; [reflexivity|]. split; [reflexivity|].
  split; [reflexivity|].
  intros HNa. rewrite !dispatched_index by exact HNa.
  rewrite !computed_base by js_neq.
  rewrite computed_params_http by exact Hs.
  split; [|split]; intros ->; reflexivity.
Qed.

(** X9: a request with a truthy [data] computes the body
    [JSON.stringify(data)] and the headers [User-Agent], [Accept] and
    [Content-Type: application/json;charset=utf-8]; with a falsy [data]
    ([null], [undefined], [0], the empty string, [false]) it computes no
    body and the first two headers only.  [src/unnamed/part_000]
    dispatches these headers always, and the body when there is one
    (otherwise a [data] of the transport overrides); [src/index.js]
    dispatches them unless the overrides define the key. *)
Theorem request_headers_and_body
        (this : WooCommerceRestApi) (method endpoint : jsstring)
        (data : value) (params : obj) :
  match getUrl this endpoint params with
  | Throw e =>
      request this method endpoint data params = Throw e
      /\ Part000.request this method endpoint data (Some params) = Throw e
  | Ok url =>
      exists o o',
        request this method endpoint data params = Ok o
        /\ Part000.request this method endpoint data (Some params) = Ok o'
        /\ getProp (js "headers") o' = Some (VObj (headersFor this data))
        /\ getProp (js "data") o'
           = (if truthy data then Some (VStr (JSON_stringify data))
              else getProp (js "data") (axiosConfig this))
        /\ (NoDup (keys (axiosConfig this)) ->
            (getProp (js "headers") (axiosConfig this) = None ->
             getProp (js "headers") o = Some (VObj (headersFor this data)))
            /\ (getProp (js "data") (axiosConfig this) = None ->
                getProp (js "data") o
                = (if truthy data then Some (VStr (JSON_stringify data))
                   else None)))
  end.
Proof.
  rewrite request_unfold, Part000_request_unfold. cbn [orObj].
  destruct (getUrl this endpoint params) as [url|e]; cbn [bind];
    [|split; reflexivity].
  eexists. eexists. split; [reflexivity|]. split; [reflexivity|].
  rewrite !dispatched_part000, computed_headers, computed_data.
  split; [reflexivity|]. split.
  - unfold bodyFor. destruct (truthy data); reflexivity.
  - intros HNa. rewrite !dispatched_index by exact HNa.
    rewrite computed_headers, computed_data.
    split; intros ->; [reflexivity|].
    unfold bodyFor. destruct (truthy data); reflexivity.
Qed.

(** X10: the verbs [get], [delete] and [options] of either revision are
    requests with their own name as method and without [data]: what they
    dispatch has the two plain headers and no body of their own; [post]
    and [put] are requests with their name and the given [data], so a
    falsy [data] is not sent. *)
Theorem verbs_dispatch
        (this : WooCommerceRestApi) (endpoint : jsstring) (data : value)
        (params : obj) :
  (forall verb name,
      In (verb, name)
         [ (get this endpoint params, js "get");
           (delete this endpoint params, js "delete");
           (options this endpoint params, js "options");
           (Part000Verbs.get this endpoint (Some params), js "get");
           (Part000Verbs.delete this endpoint (Some params), js "delete");
           (Part000Verbs.options this endpoint (Some params), js "options") ] ->
      match verb with
      | Throw e => getUrl this endpoint params = Throw e
      | Ok o =>
          (forall k, In k [js "method"; js "headers"; js "data"] ->
                     getProp k (axiosConfig this) = None)
          -> NoDup (keys (axiosConfig this))
          -> getProp (js "method") o = Some (VStr name)
             /\ getProp (js "headers") o = Some (VObj (plainHeaders this))
             /\ getProp (js "data") o = None
      end)
  /\ (forall verb name,
        In (verb, name)
           [ (post this endpoint data params, js "post");
             (put this endpoint data params, js "put");
             (Part000Verbs.post this endpoint data (Some params), js "post");
             (Part000Verbs.put this endpoint data (Some params), js "put") ] ->
        match verb with
        | Throw e => getUrl this endpoint params = Throw e
        | Ok o =>
            (forall k, In k [js "method"; js "headers"; js "data"] ->
                       getProp k (axiosConfig this) = None)
            -> NoDup (keys (axiosConfig this))
            -> getProp (js "method") o = Some (VStr name)
               /\ getProp (js "headers") o = Some (VObj (headersFor this data))
               /\ getProp (js "data") o
                  = (if truthy data then Some (VStr (JSON_stringify data))
                     else None)
        end).
Proof.
  assert (Hidx : forall name d,
             match request this name endpoint d params with
             | Throw e => getUrl this endpoint params = Throw e
             | Ok o =>
                 (forall k, In k [js "method"; js "headers"; js "data"] ->
                            getProp k (axiosConfig this) = None)
                 -> NoDup (keys (axiosConfig this))
                 -> getProp (js "method") o = Some (VStr name)
                    /\ getProp (js "headers") o = Some (VObj (headersFor this d))
                    /\ getProp (js "data") o = bodyFor d
             end).
  { intros name d. rewrite request_unfold.
    destruct (getUrl this endpoint params) as [url|e]; cbn [bind];
      [|reflexivity].
    intros Hnone HNa. rewrite !dispatched_index by exact HNa.
    rewrite !Hnone by (cbn; auto).
    rewrite computed_headers, computed_data, computed_base by js_neq.
    repeat split; reflexivity. }
  assert (Hp0 : forall name d,
             match Part000.request this name endpoint d (Some params) with
             | Throw e => getUrl this endpoint params = Throw e
             | Ok o =>
                 (forall k, In k [js "method"; js "headers"; js "data"] ->
                            getProp k (axiosConfig this) = None)
                 -> NoDup (keys (axiosConfig this))
                 -> getProp (js "method") o = Some (VStr name)
                    /\ getProp (js "headers") o = Some (VObj (headersFor this d))
                    /\ getProp (js "data") o = bodyFor d
             end).
  { intros name d. rewrite Part000_request_unfold. cbn [orObj].
    destruct (getUrl this endpoint params) as [url|e]; cbn [bind];
      [|reflexivity].
    intros Hnone HNa. rewrite !dispatched_part000.
    rewrite computed_headers, computed_data, computed_base by js_neq.
    repeat split; try reflexivity.
    destruct (bodyFor d); [reflexivity|]. apply Hnone. cbn; auto. }
  split.
  - intros verb name Hin. cbn [In] in Hin.
    destruct Hin as [H|[H|[H|[H|[H|[H|[]]]]]]]; injection H as <- <-;
      first [ exact (Hidx _ VNull) | exact (Hp0 _ VNull) ].
  - intros verb name Hin. cbn [In] in Hin.
    destruct Hin as [H|[H|[H|[H|[]]]]]; injection H as <- <-;
      first [ exact (Hidx _ data) | exact (Hp0 _ data) ].
Qed.

End Dispatched.

Lemma signed_request_is_dispatched_witness :
  exists o',
    @Part000.request exampleCollaborators Ex.shop (js "get") (js "products")
      VNull (Some Ex.perPage) = Ok o'
    /\ getProp (js "url") o'
       = Some (VStr (js "http://shop.test/wp-json/wc/v3/products?per_page=5"))
    /\ getProp (js "method") o' = Some (VStr (js "get")).
Proof.
  destruct (@signed_request_is_dispatched exampleCollaborators Ex.shop
              (js "get") (js "products") VNull Ex.perPage
              (js "http://shop.test/wp-json/wc/v3/products?per_page=5"))
    as (o & o' & _ & Ho' & Hu & Hm & _).
  - reflexivity.
  - vm_compute. reflexivity.
  - exists o'. split; [exact Ho'|]. split; [exact Hu | exact Hm].
Defined.

Lemma request_headers_and_body_witness :
  exists o,
    @request exampleCollaborators (Ex.secureShop []) (js "post")
      (js "products") (VNum 0) [] = Ok o
    /\ getProp (js "data") o = None
    /\ getProp (js "headers") o = Some (VObj (plainHeaders (Ex.secureShop []))).
Proof.
  pose proof (@request_headers_and_body exampleCollaborators (Ex.secureShop [])
                (js "post") (js "products") (VNum 0) []) as H.
  assert (E : @getUrl exampleCollaborators (Ex.secureShop []) (js "products") []
              = Ok (js "https://shop.test/wp-json/wc/v3/products"))
    by (vm_compute; reflexivity).
  rewrite E in H. destruct H as (o & o' & Ho & _ & _ & _ & Hi).
  destruct (Hi (NoDup_nil _)) as [Hh Hd].
  exists o. split; [exact Ho|]. split; [exact (Hd eq_refl) | exact (Hh eq_refl)].
Defined.

Lemma verbs_dispatch_witness :
  match @get exampleCollaborators (Ex.secureShop []) (js "products") [] with
  | Throw _ => False
  | Ok o =>
      getProp (js "method") o = Some (VStr (js "get"))
      /\ getProp (js "headers") o = Some (VObj (plainHeaders (Ex.secureShop [])))
      /\ getProp (js "data") o = None
  end.
Proof.
  pose proof (proj1 (@verbs_dispatch exampleCollaborators (Ex.secureShop [])
                       (js "products") VNull [])
                (@get exampleCollaborators (Ex.secureShop []) (js "products") [])
                (js "get") (or_introl eq_refl)) as H.
  destruct (@get exampleCollaborators (Ex.secureShop []) (js "products") [])
    as [o|e] eqn:E.
  - apply H; [intros k _; reflexivity | constructor].
  - vm_compute in E. discriminate E.
Defined.

(** ** Which authentication applies *)

Lemma eqb_nocase_lower (c d : N) :
  97 <= d -> d <= 122 -> eqb_nocase c d = (lowerAscii c =? d).
Proof.
  intros H1 H2. unfold eqb_nocase, lowerAscii.
  destruct (N.leb_spec 65 c), (N.leb_spec c 90); cbn [andb];
    destruct (N.eqb_spec c d), (N.eqb_spec (c + 32) d);
    cbn [orb]; try reflexivity; try lia.
Qed.

Lemma test_https_prefix (s : jsstring) :
  test_https s = str_eqb (map lowerAscii (firstn 5 s)) (js "https").
Proof.
  destruct s as [|c1 [|c2 [|c3 [|c4 [|c5 s]]]]]; try reflexivity.
  - cbn [firstn map str_eqb js]. cbn.
    destruct (lowerAscii c1 =? 104); reflexivity.
  - cbn. destruct (lowerAscii c1 =? 104), (lowerAscii c2 =? 116); reflexivity.
  - cbn. destruct (lowerAscii c1 =? 104), (lowerAscii c2 =? 116),
      (lowerAscii c3 =? 116); reflexivity.
  - cbn. destruct (lowerAscii c1 =? 104), (lowerAscii c2 =? 116),
      (lowerAscii c3 =? 116), (lowerAscii c4 =? 112); reflexivity.
  - unfold test_https. rewrite !eqb_nocase_lower by lia.
    cbn [firstn map]. change (js "https") with [104; 116; 116; 112; 115].
    cbn [str_eqb]. rewrite !andb_assoc, andb_true_r. reflexivity.
Qed.

(** X11: a client, of either revision, is an HTTPS client exactly when the
    first five code units of its URL are the letters [https] in any case;
    nothing after them is looked at, and a URL that does not start with
    them, [http://...] or anything shorter, is not. *)
Theorem https_is_a_prefix_test (options : option Opt.t) (this : WooCommerceRestApi) :
  constructor options = Ok this \/ Part000.constructor options = Ok this ->
  (isHttps this = true
   <-> map lowerAscii (firstn 5 (url this)) = js "https")
  /\ (forall rest, test_https (js "https" ++ rest) = true)
  /\ (forall rest, test_https (js "HTTPS" ++ rest) = true)
  /\ (forall rest, test_https (js "http:" ++ rest) = false).
Proof.
  intros Hc. split; [|repeat split; reflexivity].
  assert (E : isHttps this = test_https (url this)).
  { unfold constructor, Part000.constructor in Hc. cbv zeta in Hc.
    set (o := match options with Some o => o | None => Opt.empty end) in Hc.
    destruct (missing (Opt.url o)); [destruct Hc as [H|H]; discriminate H|].
    destruct (missing (Opt.consumerKey o));
      [destruct Hc as [H|H]; discriminate H|].
    destruct (missing (Opt.consumerSecret o));
      [destruct Hc as [H|H]; discriminate H|].
    destruct Hc as [H|H];
      assert (H' : isHttps this = test_https (orStr (Opt.url o) []))
        by (injection H as <-; reflexivity);
      rewrite H'; injection H as <-; reflexivity. }
  rewrite E, test_https_prefix. apply str_eqb_eq.
Qed.

Lemma https_is_a_prefix_test_witness :
  isHttps (Ex.secureShop []) = true
  <-> map lowerAscii (firstn 5 (url (Ex.secureShop []))) = js "https".
Proof.
  apply (https_is_a_prefix_test (Some (Ex.secureOptions [])) (Ex.secureShop [])).
  left. reflexivity.
Defined.

(** ** Arrays *)

Lemma js_inj (a b : String.string) : js a = js b -> a = b.
Proof.
  unfold js. intros H.
  rewrite <- (String.string_of_list_ascii_of_string a),
          <- (String.string_of_list_ascii_of_string b).
  f_equal.
  revert H. generalize (String.list_ascii_of_string a) as la,
                       (String.list_ascii_of_string b) as lb.
  induction la as [|x la IH]; intros [|y lb] H; try discriminate H;
    [reflexivity|].
  cbn [map] in H. injection H as Hxy Hl.
  f_equal; [|apply IH, Hl].
  rewrite <- (ascii_N_embedding x), <- (ascii_N_embedding y), Hxy.
  reflexivity.
Qed.

(** Two numbers with the same decimal text are the same number. *)
Lemma NumberToString_inj (a b : Z) : NumberToString a = NumberToString b -> a = b.
Proof.
  unfold NumberToString. intros H. apply js_inj in H.
  apply DecimalZ.to_int_inj.
  assert (Hn : forall z, Z.to_int z <> Decimal.Pos Decimal.Nil
                         /\ Z.to_int z <> Decimal.Neg Decimal.Nil).
  { intros [|p|p]; cbn; split; try discriminate;
      intros E; injection E as E;
      exact (DecimalPos.Unsigned.to_uint_nonnil p E). }
  pose proof (DecimalString.NilZero.isi (Z.to_int a)
                (proj1 (Hn a)) (proj2 (Hn a))) as Ha.
  pose proof (DecimalString.NilZero.isi (Z.to_int b)
                (proj1 (Hn b)) (proj2 (Hn b))) as Hb.
  rewrite H in Ha. congruence.
Qed.

Lemma indexed_combine (i : nat) (items : list value) :
  indexed i items
  = combine (map (fun j => NumberToString (Z.of_nat j)) (seq i (length items)))
            items.
Proof.
  revert i; induction items as [|x items IH]; intros i; [reflexivity|].
  cbn [indexed length seq map combine]. f_equal. apply IH.
Qed.

Lemma indexKeys_NoDup (n : nat) : NoDup (indexKeys n).
Proof.
  unfold indexKeys. apply Finite.Injective_map_NoDup_in; [|apply seq_NoDup].
  intros i j _ _ H. apply NumberToString_inj in H. lia.
Qed.

Lemma bracketed_inj (key i j : jsstring) :
  key ++ js "[" ++ i ++ js "]" = key ++ js "[" ++ j ++ js "]" -> i = j.
Proof.
  intros H. apply app_inv_head in H. apply app_inv_head in H.
  apply app_inv_tail in H. exact H.
Qed.

Lemma keys_combine_bracketed (key : jsstring) (ks : list jsstring)
      (items : list value) :
  length ks = length items ->
  keys (map (fun pv : jsstring * value =>
               (key ++ js "[" ++ fst pv ++ js "]", snd pv))
            (combine ks items))
  = map (fun i => key ++ js "[" ++ i ++ js "]") ks.
Proof.
  revert items; induction ks as [|k ks IH]; intros [|x items] H;
    try discriminate H; [reflexivity|].
  cbn [combine map keys fst snd]. f_equal. apply IH.
  cbn [length] in H. lia.
Qed.

Lemma bracketed_not_proto (key i : jsstring) :
  key ++ js "[" ++ i ++ js "]" <> js "__proto__".
Proof.
  change (js "__proto__") with (js "__proto_" ++ [95]).
  change (js "]") with [93]. rewrite !app_assoc. intros H.
  apply app_inj_tail in H as [_ H]. discriminate H.
Qed.

Lemma nth_error_combine {A B : Type} (ks : list A) (items : list B)
      (i : nat) (k : A) (v : B) :
  nth_error ks i = Some k -> nth_error items i = Some v ->
  In (k, v) (combine ks items).
Proof.
  revert items i; induction ks as [|k0 ks IH]; intros items i Hk Hi;
    [destruct i; discriminate Hk|].
  destruct items as [|x items]; [destruct i; discriminate Hi|].
  destruct i as [|i]; cbn [nth_error combine In] in *.
  - left. congruence.
  - right. eapply IH; eassumption.
Qed.

(** X12: an array under the key [k] is flattened to the keys [k[0]],
    [k[1]], ... in the order of its items; these keys are pairwise
    distinct, and each item is stored, as it is, under the key of its
    index. *)
Theorem arrays_flatten_by_index
        (key : jsstring) (items : list value) (rest query : obj) :
  flatten ((key, VArr items) :: rest)
  = map (fun pv => (key ++ js "[" ++ fst pv ++ js "]", snd pv))
        (combine (indexKeys (length items)) items)
    ++ flatten rest
  /\ NoDup (map (fun i => key ++ js "[" ++ i ++ js "]")
                (indexKeys (length items)))
  /\ (forall i v,
        nth_error items i = Some v ->
        getProp (key ++ js "[" ++ NumberToString (Z.of_nat i) ++ js "]")
                (parseParamsObject [(key, VArr items)] query)
        = Some v).
Proof.
  assert (Hf : flatten [(key, VArr items)]
               = map (fun pv => (key ++ js "[" ++ fst pv ++ js "]", snd pv))
                     (combine (indexKeys (length items)) items)).
  { unfold flatten. cbn [flat_map fst snd typeof_object forIn].
    rewrite app_nil_r, indexed_combine. reflexivity. }
  assert (Hlen : length (indexKeys (length items)) = length items).
  { unfold indexKeys. rewrite length_map, length_seq. reflexivity. }
  assert (HN : NoDup (map (fun i => key ++ js "[" ++ i ++ js "]")
                          (indexKeys (length items)))).
  { apply Finite.Injective_map_NoDup_in; [|apply indexKeys_NoDup].
    intros i j _ _. apply bracketed_inj. }
  split; [|split].
  - change ((key, VArr items) :: rest) with ([(key, VArr items)] ++ rest).
    unfold flatten at 1. rewrite flat_map_app. fold (flatten [(key, VArr items)]).
    fold (flatten rest). rewrite Hf. reflexivity.
  - exact HN.
  - intros i v Hi. rewrite parseParamsObject_flatten, Hf.
    rewrite written_all.
    2:{ rewrite keys_combine_bracketed by exact Hlen. intros Hin.
        apply in_map_iff in Hin as [j [Hj _]].
        exact (bracketed_not_proto key j Hj). }
    rewrite getProp_spread
      by (rewrite keys_combine_bracketed by exact Hlen; exact HN).
    rewrite (In_getProp _ v);
      [reflexivity | rewrite keys_combine_bracketed by exact Hlen; exact HN |].
    apply in_map_iff. exists (NumberToString (Z.of_nat i), v).
    split; [reflexivity|].
    assert (Hi' : (i < length items)%nat)
      by (apply nth_error_Some; congruence).
    assert (Hk : nth_error (indexKeys (length items)) i
                 = Some (NumberToString (Z.of_nat i))).
    { unfold indexKeys. rewrite nth_error_map, nth_error_seq.
      destruct (Nat.ltb_spec i (length items)); [reflexivity | lia]. }
    eapply nth_error_combine; eassumption.
Qed.

Lemma arrays_flatten_by_index_witness :
  getProp (js "include[1]") (parseParamsObject Ex.withArray []) = Some (VNum 9).
Proof.
  apply (proj2 (proj2 (arrays_flatten_by_index (js "include")
                         [VNum 7; VNum 9] [] []))
           1%nat (VNum 9)).
  reflexivity.
Defined.

(** ** The port when the host name is not found *)

Section PortLost.
Context {collab : Collaborators}.

Lemma assembledUrl_eq (this : WooCommerceRestApi) (endpoint : jsstring) :
  (if str_eqb (slice_last (url this)) (js "/")
   then url this else url this ++ js "/")
  ++ (wpAPIPrefix this ++ js "/") ++ version this ++ js "/" ++ endpoint
  = assembledUrl this endpoint.
Proof.
  unfold assembledUrl. rewrite withoutSlash_slash, <- !app_assoc. reflexivity.
Qed.

(** X13: when the host name that the address parser reports does not occur
    in the assembled URL (the parser reports it in lower case, the URL has
    it in another case), the replacement finds nothing and the configured
    port is left out of the URL without any error. *)
Theorem port_lost_when_host_not_found
        (this : WooCommerceRestApi) (endpoint : jsstring) (params : obj) :
  port this <> [] ->
  indexOf (Url_hostname (assembledUrl this endpoint))
          (assembledUrl this endpoint) = None ->
  builtUrl this endpoint = assembledUrl this endpoint
  /\ getUrl this endpoint params
     = if negb (isHttps this)
       then normalizeQueryString (assembledUrl this endpoint) params
       else Ok (assembledUrl this endpoint).
Proof.
  intros Hport Hnone.
  assert (Hb : builtUrl this endpoint = assembledUrl this endpoint).
  { unfold builtUrl. cbv zeta. rewrite assembledUrl_eq.
    apply str_eqb_neq in Hport. rewrite Hport. cbn [negb].
    unfold replace. rewrite Hnone. reflexivity. }
  split; [exact Hb|]. rewrite getUrl_builtUrl, Hb. reflexivity.
Qed.

End PortLost.

Lemma port_lost_when_host_not_found_witness :
  @getUrl lowercasingCollaborators
    (setDefaultsOptions (js "1.0.2") Ex.mixedCasePortOptions)
    (js "products") []
  = Ok (js "http://Shop.Test/wp-json/wc/v3/products").
Proof.
  rewrite (proj2 (@port_lost_when_host_not_found lowercasingCollaborators
                    (setDefaultsOptions (js "1.0.2") Ex.mixedCasePortOptions)
                    (js "products") [] ltac:(vm_compute; discriminate)
                    ltac:(vm_compute; reflexivity))).
  vm_compute. reflexivity.
Defined.

(** ** Plain pairs, and nested params as bracketed keys *)

Lemma Encode_verbatim (U : N -> bool) (s : jsstring) :
  forallb U s = true -> Encode U s = Some s.
Proof.
  induction s as [|c s IH]; [reflexivity|].
  cbn [forallb]. intros H. apply andb_true_iff in H as [Hc Hs].
  cbn [Encode]. rewrite Hc, IH by exact Hs. reflexivity.
Qed.

Lemma traverse_map {A B : Type} (f : A -> option B) (g : A -> B) (l : list A) :
  (forall a, In a l -> f a = Some (g a)) -> traverse f l = Some (map g l).
Proof.
  induction l as [|a l IH]; intros H; [reflexivity|].
  cbn [traverse map]. rewrite (H a) by (left; reflexivity).
  rewrite IH by (intros x Hx; apply H; right; exact Hx). reflexivity.
Qed.

Section Plain.
Context {collab : Collaborators}.

(** X14: when every key to emit is made of letters, digits, the marks
    [- _ . ! ~ * ' ( )] and brackets, and the text of every value of
    letters, digits and these marks, the canonical URL is the part of the
    URL before its first [?], a [?], and the pairs [key=value] as they
    are, in ascending order of the keys, joined by [&]. *)
Theorem plain_pairs_verbatim (url : jsstring) (params : obj) :
  notFound (indexOf (js "?") url) && (length (keys params) =? 0)%nat = false ->
  let pairs := emitted (parseParamsObject params (Url_query url)) in
  (forall kv, In kv pairs ->
              forallb keyUnescaped (fst kv) = true
              /\ forallb uriUnescaped (ToString (snd kv)) = true) ->
  normalizeQueryString url params
  = Ok (split0 (js "?") url ++ js "?"
        ++ join (js "&")
             (map (fun kv => fst kv ++ js "=" ++ ToString (snd kv)) pairs)).
Proof.
  intros Hlate pairs Hplain. rewrite normalizeQueryString_spec, Hlate.
  fold pairs.
  rewrite (traverse_map pairText
             (fun kv => fst kv ++ js "=" ++ ToString (snd kv))).
  - reflexivity.
  - intros kv Hin. destruct (Hplain kv Hin) as [Hk Hv]. unfold pairText.
    rewrite (Encode_verbatim _ _ Hk), (Encode_verbatim _ _ Hv). reflexivity.
Qed.

(** X15: a mapping with one level of nesting canonicalizes as the flat
    mapping of its bracketed keys does: when no flattened value is itself
    an object and the mapping is not one that flattens to nothing,
    [{ a: { b: 1 } }] and [{ "a[b]": 1 }] give the same URL. *)
Theorem nested_params_as_bracketed (url : jsstring) (params : obj) :
  Forall (fun kv => typeof_object (snd kv) = false) (flatten params) ->
  (flatten params = [] -> params = []) ->
  normalizeQueryString url params = normalizeQueryString url (flatten params).
Proof.
  intros Hflat Hempty. rewrite !normalizeQueryString_spec.
  rewrite !parseParamsObject_flatten, (flatten_flat (flatten params) Hflat).
  assert (E : (length (keys params) =? 0)%nat
              = (length (keys (flatten params)) =? 0)%nat).
  { destruct (flatten params) as [|kv l] eqn:Ef.
    - rewrite (Hempty eq_refl). reflexivity.
    - destruct params; [discriminate Ef | reflexivity]. }
  rewrite E. reflexivity.
Qed.

End Plain.

Lemma plain_pairs_verbatim_witness :
  @normalizeQueryString exampleCollaborators Ex.address
    [(js "b", VStr (js "x.y")); (js "a[0]", VStr (js "z"))]
  = Ok (js "http://x/p?a[0]=z&b=x.y").
Proof.
  rewrite (@plain_pairs_verbatim exampleCollaborators Ex.address
             [(js "b", VStr (js "x.y")); (js "a[0]", VStr (js "z"))]).
  - vm_compute. reflexivity.
  - vm_compute. reflexivity.
  - intros kv Hin. vm_compute in Hin.
    destruct Hin as [<-|[<-|[]]]; split; vm_compute; reflexivity.
Defined.

Lemma nested_params_as_bracketed_witness :
  @normalizeQueryString exampleCollaborators Ex.address Ex.nested1
  = @normalizeQueryString exampleCollaborators Ex.address
      [(js "a[b]", VNum 1)].
Proof.
  apply (@nested_params_as_bracketed exampleCollaborators Ex.address Ex.nested1).
  - repeat constructor.
  - vm_compute. discriminate.
Defined.

